(** * VM deployment orchestrator: batch deployment pipeline

    A shallow embedding of [pathahead/deployment_orchestrator.py] and the
    properties of its identifier allocation, load distribution, batch
    partitioning, per-batch pipeline and run loop.

    The file as it is does not define the class its docstrings describe:
    [def get_next_available_vm_id] (line 99) and [def generate_vm_ids] (line
    209) start at column 0, so the class [DeploymentOrchestrator] ends
    before the first of them, and every def after them sits behind a
    [return] and is never executed.  The embedding keeps this apart from
    what the function bodies do: a call [self.name(...)] is a [self_call],
    which raises [AttributeError] unless the object has the attribute, and
    every statement about a function that only exists as a method says that
    the method is bound (see "Attributes of the orchestrator object").

    Python integers are unbounded: identifiers are [Z], list positions and
    lengths are [nat].  Dictionaries whose order is never observed are
    [gmap]s; [self.templates], whose keys are enumerated, is an association
    list in insertion order.  Code that talks to the outside (subprocesses,
    the file system, the template engine) runs in a small monad that threads
    the process state and may raise a Python exception; what the outside
    answers is given by a [World], a family of oracles that may depend on
    everything that happened before. *)

From Stdlib Require Import ZArith String Ascii DecimalString DecimalNat DecimalZ Lia.
From stdpp Require Import base option list gmap sets strings.

Open Scope string_scope.
Open Scope list_scope.
Open Scope nat_scope.

(** ** Data classes *)

Record VMTemplate := {
  tpl_name : string;
  tpl_vm_id : Z;
  os_type : string;
  cpu_cores : Z;
  memory_mb : Z;
  disk_size_gb : Z
}.

(** [current_load], a float that defaults to 0.0 and is never read, is left
    out. *)
Record ProxmoxNode := {
  node_name : string;
  hostname : string;
  available_cores : Z;
  available_memory_gb : Z;
  available_storage_gb : Z
}.

(** [vm_assignments] is [None] until the load distribution fills it. *)
Record User := {
  username : string;
  email : string;
  full_name : string;
  department : string;
  vm_assignments : option (gmap string string)
}.

Definition set_vm_assignments (u : User) (a : gmap string string) : User :=
  {| username := username u; email := email u; full_name := full_name u;
     department := department u; vm_assignments := Some a |}.

(** ** Attributes of the orchestrator object

    The names that the code calls as [self.name(...)].  In the source,
    [get_next_available_vm_id] and [generate_vm_ids] are functions of the
    module (their [def] starts at column 0); the class has [__init__],
    [_load_config] and [setup_logging] only.  The other defs are nested
    behind the [return]s of those two functions: [_load_templates],
    [_load_nodes], [load_users_from_csv] and [calculate_load_distribution]
    behind lines 119 and 123, [create_terraform_configs],
    [deploy_terraform_batch], [generate_ansible_inventory],
    [run_ansible_playbooks], [deploy_batch], [deploy_all_users] and
    [generate_deployment_report] behind line 223.  They are bound to
    nothing and cannot be called in the file as it is. *)
Inductive method :=
| m_load_templates
| m_get_next_available_vm_id
| m_generate_vm_ids
| m_calculate_load_distribution
| m_create_terraform_configs
| m_deploy_terraform_batch
| m_generate_ansible_inventory
| m_run_ansible_playbooks
| m_deploy_batch
| m_deploy_all_users.

Definition method_name (m : method) : string :=
  match m with
  | m_load_templates => "_load_templates"
  | m_get_next_available_vm_id => "get_next_available_vm_id"
  | m_generate_vm_ids => "generate_vm_ids"
  | m_calculate_load_distribution => "calculate_load_distribution"
  | m_create_terraform_configs => "create_terraform_configs"
  | m_deploy_terraform_batch => "deploy_terraform_batch"
  | m_generate_ansible_inventory => "generate_ansible_inventory"
  | m_run_ansible_playbooks => "run_ansible_playbooks"
  | m_deploy_batch => "deploy_batch"
  | m_deploy_all_users => "deploy_all_users"
  end.

Definition all_methods : method → bool := λ _, true.

(** The [self] of the functions: the fields that the pipeline reads, and
    which of the names above resolve on the object.  [playbook_dir] is
    [config['ansible']['playbook_dir']] when present, [proxmox_config]
    stands for [config.get('proxmox', {})]. *)
Record Orchestrator := {
  playbook_dir_cfg : option string;
  proxmox_config : string;
  templates : list (string * VMTemplate);
  nodes : list ProxmoxNode;
  users : list User;
  methods : method → bool
}.

Definition with_users (self : Orchestrator) (us : list User) : Orchestrator :=
  {| playbook_dir_cfg := playbook_dir_cfg self;
     proxmox_config := proxmox_config self;
     templates := templates self; nodes := nodes self; users := us;
     methods := methods self |}.

Definition with_methods (self : Orchestrator) (ms : method → bool) : Orchestrator :=
  {| playbook_dir_cfg := playbook_dir_cfg self;
     proxmox_config := proxmox_config self;
     templates := templates self; nodes := nodes self; users := users self;
     methods := ms |}.

(** [self.templates.keys()]: the keys of a dict, in insertion order. *)
Definition template_keys (self : Orchestrator) : list string :=
  (templates self).*1.

(** ** Exceptions, outcomes and the process state *)

(** [subprocess.CalledProcessError] is told apart because two handlers
    catch only it; every other subclass of [Exception] is [PyError] with its
    class name.  [exn_str] is [str(e)]. *)
Inductive exn :=
| CalledProcessError (msg stderr : string)
| PyError (cls msg : string).

Definition exn_str (e : exn) : string :=
  match e with
  | CalledProcessError msg _ => msg
  | PyError _ msg => msg
  end.

Inductive outcome (A : Type) :=
| Returns (v : A)
| Raises (e : exn).
Arguments Returns {A} v.
Arguments Raises {A} e.

Inductive level := INFO | WARNING | ERROR.

(** The variables handed to the template engine. *)
Inductive template_vars :=
| TerraformVars (tv_users : list User) (tv_templates : list (string * VMTemplate))
    (tv_vm_ids : gmap string Z) (tv_proxmox : string) (tv_batch_id : string)
| InventoryVars (iv_outputs : string) (iv_templates : list (string * VMTemplate)).

(** One entry per interaction with the outside, with what it answered. *)
Inductive event :=
| EvRun (dir : string) (argv : list string) (res : outcome string)
| EvChdir (target : string) (res : outcome string)
| EvExists (path : string) (res : bool)
| EvMakedirs (path : string) (res : outcome unit)
| EvRender (template file : string) (vars : template_vars) (res : outcome unit)
| EvReadJson (file : string) (res : outcome string)
| EvWriteJson (file doc : string) (res : outcome unit).

Record Proc := {
  cwd : string;
  log : list (level * string);
  trace : list event
}.

Definition set_cwd (d : string) (st : Proc) : Proc :=
  {| cwd := d; log := log st; trace := trace st |}.
Definition add_log (l : level) (m : string) (st : Proc) : Proc :=
  {| cwd := cwd st; log := log st ++ [(l, m)]; trace := trace st |}.
Definition add_event (e : event) (st : Proc) : Proc :=
  {| cwd := cwd st; log := log st; trace := trace st ++ [e] |}.

(** What the outside answers, given the history of the run so far.
    - [w_run]: [subprocess.run(argv, capture_output=True, text=True,
      check=True)] in a directory; the captured stdout, or
      [CalledProcessError] on a non-zero exit, or another error;
    - [w_chdir]: [os.chdir]; the directory reached, or an error;
    - [w_exists]: [os.path.exists];
    - [w_makedirs]: [os.makedirs(path, exist_ok=True)];
    - [w_render]: [get_template], [render] and the write of the result;
    - [w_read_json]: [open] and [json.load];
    - [w_write_json]: [open] for writing and [json.dump];
    - [w_json_loads]: [json.loads] of a captured stdout;
    - [w_json_vmids]: [json.loads] of a captured stdout followed by the
      read of ['vmid'] in each of its entries. *)
Record World := {
  w_run : list event → string → list string → outcome string;
  w_chdir : list event → string → string → outcome string;
  w_exists : list event → string → bool;
  w_makedirs : list event → string → outcome unit;
  w_render : list event → string → string → template_vars → outcome unit;
  w_read_json : list event → string → outcome string;
  w_write_json : list event → string → string → outcome unit;
  w_json_loads : string → outcome string;
  w_json_vmids : string → outcome (list Z)
}.

(** ** The monad of effectful code *)

Definition M (A : Type) : Type := Proc → outcome A * Proc.

Definition ret {A} (v : A) : M A := λ st, (Returns v, st).
Definition raise {A} (e : exn) : M A := λ st, (Raises e, st).
Definition bind {A B} (m : M A) (k : A → M B) : M B :=
  λ st, match m st with
        | (Returns v, st') => k v st'
        | (Raises e, st') => (Raises e, st')
        end.

Declare Scope py_scope.
Delimit Scope py_scope with py.
Notation "x <- c1 ;; c2" := (bind c1 (λ x, c2))
  (at level 100, c1 at next level, right associativity) : py_scope.
Notation "c1 ;; c2" := (bind c1 (λ _, c2))
  (at level 100, right associativity) : py_scope.
Open Scope py_scope.

(** [try: body except Exception as e: handler e] *)
Definition try_except {A} (body : M A) (handler : exn → M A) : M A :=
  λ st, match body st with
        | (Returns v, st') => (Returns v, st')
        | (Raises e, st') => handler e st'
        end.

(** [try: body except subprocess.CalledProcessError as e: handler e.stderr];
    other exceptions pass through. *)
Definition try_except_cpe {A} (body : M A) (handler : string → M A) : M A :=
  λ st, match body st with
        | (Raises (CalledProcessError _ stderr), st') => handler stderr st'
        | r => r
        end.

(** [try: body finally: fin]: [fin] runs on every path; an exception of
    [fin] replaces the outcome of [body]. *)
Definition try_finally {A} (body : M A) (fin : M unit) : M A :=
  λ st, let '(r, st1) := body st in
        match fin st1 with
        | (Returns _, st2) => (r, st2)
        | (Raises e, st2) => (Raises e, st2)
        end.

Definition lift_outcome {A} (o : outcome A) : M A := λ st, (o, st).

(** [self.name(...)]: the attribute is looked up before the call; a name
    that does not resolve raises [AttributeError]. *)
Definition attribute_error (m : method) : exn :=
  PyError "AttributeError"
    ("'DeploymentOrchestrator' object has no attribute '" +:+ method_name m +:+ "'").

Definition self_call {A} (self : Orchestrator) (m : method) (body : M A) : M A :=
  if methods self m then body else raise (attribute_error m).

(** *** Primitives *)

Definition logger (l : level) (m : string) : M unit :=
  λ st, (Returns tt, add_log l m st).

Definition os_getcwd : M string := λ st, (Returns (cwd st), st).

Definition os_chdir (w : World) (path : string) : M unit :=
  λ st, let r := w_chdir w (trace st) (cwd st) path in
        let st' := add_event (EvChdir path r) st in
        match r with
        | Returns d => (Returns tt, set_cwd d st')
        | Raises e => (Raises e, st')
        end.

Definition subprocess_run (w : World) (argv : list string) : M string :=
  λ st, let r := w_run w (trace st) (cwd st) argv in
        (r, add_event (EvRun (cwd st) argv r) st).

Definition os_path_exists (w : World) (path : string) : M bool :=
  λ st, let r := w_exists w (trace st) path in
        (Returns r, add_event (EvExists path r) st).

Definition os_makedirs (w : World) (path : string) : M unit :=
  λ st, let r := w_makedirs w (trace st) path in
        (r, add_event (EvMakedirs path r) st).

Definition render_to_file (w : World) (template file : string)
    (vars : template_vars) : M unit :=
  λ st, let r := w_render w (trace st) template file vars in
        (r, add_event (EvRender template file vars r) st).

Definition read_json (w : World) (file : string) : M string :=
  λ st, let r := w_read_json w (trace st) file in
        (r, add_event (EvReadJson file r) st).

Definition write_json (w : World) (file doc : string) : M unit :=
  λ st, let r := w_write_json w (trace st) file doc in
        (r, add_event (EvWriteJson file doc r) st).

(** *** Formatting of integers *)

(** [str(n)] for a natural number, and [f"{n:03d}"]: decimal digits, padded
    on the left with zeros up to three characters. *)
Definition str_nat (n : nat) : string :=
  NilEmpty.string_of_uint (Nat.to_uint n).

Fixpoint zeros (k : nat) : string :=
  match k with
  | O => ""
  | S k' => String "0" (zeros k')
  end.

Definition format_03d (n : nat) : string :=
  let s := str_nat n in zeros (3 - String.length s) +:+ s.

Definition str_int (z : Z) : string :=
  NilZero.string_of_int (Z.to_int z).

(** ** VM identifier allocation *)

Definition pvesh_cmd (node : ProxmoxNode) : list string :=
  ["pvesh"; "get"; "/nodes/" +:+ node_name node +:+ "/qemu";
   "--output-format"; "json"].

(** The query of one node: the [pvesh] call and the decoding of its
    answer. *)
Definition query_node (w : World) (node : ProxmoxNode) : M (list Z) :=
  result <- subprocess_run w (pvesh_cmd node) ;;
  lift_outcome (w_json_vmids w result).

(** The [for node in self.nodes] loop of [get_next_available_vm_id]. *)
Fixpoint query_existing_ids (w : World) (ns : list ProxmoxNode)
    (existing_ids : gset Z) : M (gset Z) :=
  match ns with
  | [] => ret existing_ids
  | node :: rest =>
      vms <- query_node w node ;;
      query_existing_ids w rest (existing_ids ∪ list_to_set vms)
  end.

(** [while current_id in existing_ids: current_id += 1].  Each turn of the
    loop finds one more member of the finite set, so [size existing_ids]
    turns are enough ([next_free_spec] below). *)
Fixpoint next_free_from (fuel : nat) (existing_ids : gset Z) (current_id : Z) : Z :=
  match fuel with
  | O => current_id
  | S fuel' =>
      if decide (current_id ∈ existing_ids)
      then next_free_from fuel' existing_ids (current_id + 1)%Z
      else current_id
  end.

Definition next_free (existing_ids : gset Z) (start_id : Z) : Z :=
  next_free_from (size existing_ids) existing_ids start_id.

(** A function of the module (line 99): it can be called on any object
    that has [nodes] and [logger]. *)
Definition get_next_available_vm_id (w : World) (self : Orchestrator)
    (start_id : Z) : M Z :=
  try_except
    (existing_ids <- query_existing_ids w (nodes self) ∅ ;;
     ret (next_free existing_ids start_id))
    (λ e, logger WARNING ("Could not query existing VM IDs: " +:+ exn_str e) ;;
          ret start_id).

(** The two nested loops of [generate_vm_ids], threading the map and
    [current_id]. *)
Definition vm_key (user : User) (vm_type : string) : string :=
  username user +:+ "_" +:+ vm_type.

Definition assign_user_ids (user : User) (keys : list string)
    (acc : gmap string Z * Z) : gmap string Z * Z :=
  foldl (λ '(vm_id_map, current_id) vm_type,
           (<[vm_key user vm_type := current_id]> vm_id_map, (current_id + 1)%Z))
        acc keys.

Definition assign_all_ids (us : list User) (keys : list string)
    (acc : gmap string Z * Z) : gmap string Z * Z :=
  foldl (λ acc user, assign_user_ids user keys acc) acc us.

(** A function of the module, like [get_next_available_vm_id]; without a
    [start_id] it calls [self.get_next_available_vm_id(500)]. *)
Definition generate_vm_ids (w : World) (self : Orchestrator)
    (start_id : option Z) : M (gmap string Z) :=
  start_id <- match start_id with
              | None =>
                  self_call self m_get_next_available_vm_id
                    (get_next_available_vm_id w self 500%Z)
              | Some s => ret s
              end ;;
  ret (assign_all_ids (users self) (template_keys self) (∅, start_id)).1.

(** ** Load distribution *)

(** The inner loop of [calculate_load_distribution] over
    [enumerate(self.templates.keys())] for the user at roster position [i],
    from template position [j] on. *)
Fixpoint assign_vms_from (node_names : list string) (i j : nat)
    (keys : list string) (assignments : gmap string string) : gmap string string :=
  match keys with
  | [] => assignments
  | vm_type :: rest =>
      let vm_node := node_names !!! ((i + j) mod length node_names) in
      assign_vms_from node_names i (S j) rest (<[vm_type := vm_node]> assignments)
  end.

(** The outer loop over [enumerate(self.users)], from roster position [i]
    on.  [i % len(node_names)] raises [ZeroDivisionError] when there is no
    node, [node_assignments[target_node]] raises [KeyError] on a missing
    key.  The list of a node holds the very object whose [vm_assignments]
    the next lines fill, so it holds the user as updated. *)
Fixpoint distribute_from (node_names keys : list string) (i : nat)
    (us : list User) (node_assignments : gmap string (list User))
    : outcome (gmap string (list User) * list User) :=
  match us with
  | [] => Returns (node_assignments, [])
  | user :: rest =>
      match length node_names with
      | O => Raises (PyError "ZeroDivisionError" "integer modulo by zero")
      | _ =>
          let target_node := node_names !!! (i mod length node_names) in
          match node_assignments !! target_node with
          | None => Raises (PyError "KeyError" target_node)
          | Some assigned =>
              let user' :=
                set_vm_assignments user (assign_vms_from node_names i 0 keys ∅) in
              match distribute_from node_names keys (S i) rest
                      (<[target_node := (assigned ++ [user'])%list]> node_assignments) with
              | Returns (na, us') => Returns (na, user' :: us')
              | Raises e => Raises e
              end
          end
      end
  end.

(** [{node.name: [] for node in self.nodes}] *)
Definition empty_assignments (ns : list ProxmoxNode) : gmap string (list User) :=
  foldl (λ m node, <[node_name node := []]> m) ∅ ns.

(** The def of line 185, bound only as a method ([m_calculate_load_distribution]).
    Returns [node_assignments] and the roster as the loop leaves it. *)
Definition calculate_load_distribution (self : Orchestrator)
    : M (gmap string (list User) * list User) :=
  let total_users := length (users self) in
  let vms_per_user := length (templates self) in
  let total_vms := total_users * vms_per_user in
  logger INFO ("Planning deployment: " +:+ str_nat total_users +:+ " users, "
               +:+ str_nat total_vms +:+ " VMs total") ;;
  lift_outcome
    (distribute_from (node_name <$> nodes self) (template_keys self) 0
       (users self) (empty_assignments (nodes self))).

(** ** The steps of a batch *)

(** The defs of this section (lines 225 to 380) are bound only as methods;
    their calls to one another go through [self]. *)
Definition create_terraform_configs (w : World) (self : Orchestrator)
    (user_batch : list User) (batch_id : string) : M string :=
  let batch_dir := "terraform_batches/batch_" +:+ batch_id in
  os_makedirs w batch_dir ;;
  vm_ids <- self_call self m_generate_vm_ids (generate_vm_ids w self None) ;;
  let template_vars :=
    TerraformVars user_batch (templates self) vm_ids (proxmox_config self) batch_id in
  render_to_file w "terraform/main.tf.j2" (batch_dir +:+ "/main.tf") template_vars ;;
  render_to_file w "terraform/variables.tf.j2" (batch_dir +:+ "/variables.tf")
    template_vars ;;
  render_to_file w "terraform/terraform.tfvars.j2" (batch_dir +:+ "/terraform.tfvars")
    template_vars ;;
  logger INFO ("Generated Terraform configs for batch " +:+ batch_id) ;;
  ret batch_dir.

(** The body of the [try] of [deploy_terraform_batch] after
    [os.chdir(batch_dir)]: init, plan, apply, and the capture of the
    outputs. *)
Definition terraform_commands (w : World) : M bool :=
  result <- subprocess_run w ["terraform"; "init"] ;;
  logger INFO ("Terraform init successful: " +:+ result) ;;
  subprocess_run w ["terraform"; "plan"; "-out=tfplan"] ;;
  logger INFO "Terraform plan successful" ;;
  result <- subprocess_run w ["terraform"; "apply"; "tfplan"] ;;
  logger INFO ("Terraform apply successful: " +:+ result) ;;
  result <- subprocess_run w ["terraform"; "output"; "-json"] ;;
  outputs <- lift_outcome (w_json_loads w result) ;;
  write_json w "terraform_outputs.json" outputs ;;
  ret true.

(** The body of the [try] after [os.getcwd()]. *)
Definition terraform_sequence (w : World) (batch_dir : string) : M bool :=
  os_chdir w batch_dir ;;
  terraform_commands w.

(** [os.getcwd()] opens the [try] of the source; it has no failure in this
    model, so reading it first is the same. *)
Definition deploy_terraform_batch (w : World) (self : Orchestrator)
    (batch_dir : string) : M bool :=
  original_cwd <- os_getcwd ;;
  try_finally
    (try_except_cpe
       (terraform_sequence w batch_dir)
       (λ stderr, logger ERROR ("Terraform deployment failed: " +:+ stderr) ;;
                  ret false))
    (os_chdir w original_cwd).

Definition generate_ansible_inventory (w : World) (self : Orchestrator)
    (batch_dir : string) : M string :=
  try_except
    (terraform_outputs <- read_json w (batch_dir +:+ "/terraform_outputs.json") ;;
     let inventory_file := batch_dir +:+ "/inventory.yml" in
     render_to_file w "ansible/inventory.j2" inventory_file
       (InventoryVars terraform_outputs (templates self)) ;;
     logger INFO ("Generated Ansible inventory: " +:+ inventory_file) ;;
     ret inventory_file)
    (λ e, logger ERROR ("Failed to generate Ansible inventory: " +:+ exn_str e) ;;
          raise e).

Definition playbooks : list string :=
  ["base_configuration.yml"; "guacamole_integration.yml";
   "netbox_integration.yml"; "freeipa_integration.yml"].

Definition ansible_cmd (inventory_file playbook_path batch_dir : string)
    : list string :=
  ["ansible-playbook"; "-i"; inventory_file; playbook_path;
   "--extra-vars"; "batch_dir=" +:+ batch_dir].

(** The [for playbook in playbooks] loop. *)
Fixpoint run_playbooks (w : World) (playbook_dir inventory_file batch_dir : string)
    (pbs : list string) : M unit :=
  match pbs with
  | [] => ret tt
  | playbook :: rest =>
      let playbook_path := playbook_dir +:+ "/" +:+ playbook in
      found <- os_path_exists w playbook_path ;;
      if found then
        subprocess_run w (ansible_cmd inventory_file playbook_path batch_dir) ;;
        logger INFO ("Successfully ran playbook " +:+ playbook) ;;
        run_playbooks w playbook_dir inventory_file batch_dir rest
      else
        logger WARNING ("Playbook not found: " +:+ playbook_path) ;;
        run_playbooks w playbook_dir inventory_file batch_dir rest
  end.

(** [run_ansible_playbooks] over a given playbook list; the source runs it
    on [playbooks]. *)
Definition run_ansible_playbooks_on (w : World) (self : Orchestrator)
    (pbs : list string) (inventory_file batch_dir : string) : M bool :=
  let playbook_dir := default "ansible" (playbook_dir_cfg self) in
  try_except_cpe
    (run_playbooks w playbook_dir inventory_file batch_dir pbs ;;
     ret true)
    (λ stderr, logger ERROR ("Ansible playbook failed: " +:+ stderr) ;;
               ret false).

Definition run_ansible_playbooks (w : World) (self : Orchestrator)
    (inventory_file batch_dir : string) : M bool :=
  run_ansible_playbooks_on w self playbooks inventory_file batch_dir.

(** The body of the [try] of [deploy_batch]. *)
Definition batch_pipeline (w : World) (self : Orchestrator)
    (user_batch : list User) (batch_id : string) : M bool :=
  batch_dir <- self_call self m_create_terraform_configs
                 (create_terraform_configs w self user_batch batch_id) ;;
  deployed <- self_call self m_deploy_terraform_batch
                (deploy_terraform_batch w self batch_dir) ;;
  (if deployed then ret tt
   else raise (PyError "Exception" "Terraform deployment failed")) ;;
  inventory_file <- self_call self m_generate_ansible_inventory
                      (generate_ansible_inventory w self batch_dir) ;;
  configured <- self_call self m_run_ansible_playbooks
                  (run_ansible_playbooks w self inventory_file batch_dir) ;;
  (if configured then ret tt
   else raise (PyError "Exception" "Ansible configuration failed")) ;;
  logger INFO ("Successfully completed batch " +:+ batch_id) ;;
  ret true.

Definition deploy_batch (w : World) (self : Orchestrator)
    (user_batch : list User) (batch_id : string) : M bool :=
  logger INFO ("Starting deployment for batch " +:+ batch_id +:+ " with "
               +:+ str_nat (length user_batch) +:+ " users") ;;
  try_except
    (batch_pipeline w self user_batch batch_id)
    (λ e, logger ERROR ("Batch " +:+ batch_id +:+ " deployment failed: "
                        +:+ exn_str e) ;;
          ret false).

(** ** Batch partitioning and the run loop *)

(** [range(0, stop, step)] for a positive step: the loop variable grows by
    at least one each turn, so [stop] turns are enough ([py_range_multiples]
    below). *)
Fixpoint range_from (fuel i stop step : nat) : list nat :=
  match fuel with
  | O => []
  | S fuel' =>
      if decide (i < stop) then i :: range_from fuel' (i + step) stop step
      else []
  end.

Definition py_range (stop step : nat) : list nat :=
  range_from stop 0 stop step.

(** [self.users[i:i + batch_size]] and the batch identifier. *)
Definition make_batch (us : list User) (batch_size i : nat) : list User * string :=
  (take batch_size (drop i us), "batch_" +:+ format_03d (i / batch_size + 1)).

(** The creation of [user_batches], lines 390 to 393 of [deploy_all_users].
    [range] raises [ValueError] for a zero step and is empty for a negative
    one. *)
Definition make_batches (us : list User) (batch_size : Z)
    : outcome (list (list User * string)) :=
  match batch_size with
  | Z0 => Raises (PyError "ValueError" "range() arg 3 must not be zero")
  | Zneg _ => Returns []
  | Zpos p =>
      let b := Pos.to_nat p in
      Returns (make_batch us b <$> py_range (length us) b)
  end.

(** The [for batch_users, batch_id in user_batches] loop, lines 396 to 405
    of [deploy_all_users]. *)
Fixpoint deploy_loop (w : World) (self : Orchestrator)
    (user_batches : list (list User * string)) (results : gmap string bool)
    : M (gmap string bool) :=
  match user_batches with
  | [] => ret results
  | (batch_users, batch_id) :: rest =>
      success <- self_call self m_deploy_batch
                   (deploy_batch w self batch_users batch_id) ;;
      let results := <[batch_id := success]> results in
      if success then deploy_loop w self rest results
      else
        logger ERROR ("Batch " +:+ batch_id +:+ " failed, stopping deployment") ;;
        ret results
  end.

(** The def of line 382, bound only as a method ([m_deploy_all_users]). *)
Definition deploy_all_users (w : World) (self : Orchestrator) (batch_size : Z)
    : M (gmap string bool) :=
  logger INFO ("Starting deployment for " +:+ str_nat (length (users self))
               +:+ " users in batches of " +:+ str_int batch_size) ;;
  distribution <- self_call self m_calculate_load_distribution
                    (calculate_load_distribution self) ;;
  let load_distribution := distribution.1 in
  let self := with_users self distribution.2 in
  user_batches <- lift_outcome (make_batches (users self) batch_size) ;;
  deploy_loop w self user_batches ∅.

(** * Auxiliary definitions for the statements *)

(** The loops of [generate_vm_ids] visit the keys of [all_vm_keys] in order
    and give the key at position [p] the identifier [start + p]. *)
Definition all_vm_keys (us : list User) (keys : list string) : list string :=
  us ≫= λ user, vm_key user <$> keys.

Definition assign_keys (ks : list string) (acc : gmap string Z * Z)
    : gmap string Z * Z :=
  foldl (λ '(vm_id_map, current_id) k,
           (<[k := current_id]> vm_id_map, (current_id + 1)%Z)) acc ks.

(** * Concrete inputs for the scenarios *)

Definition mk_user (name : string) : User :=
  {| username := name; email := name +:+ "@example.org"; full_name := name;
     department := ""; vm_assignments := None |}.

Definition mk_node (name : string) : ProxmoxNode :=
  {| node_name := name; hostname := name +:+ ".cluster"; available_cores := 32;
     available_memory_gb := 128; available_storage_gb := 2000 |}.

Definition mk_template (name : string) (id : Z) : string * VMTemplate :=
  (name, {| tpl_name := name; tpl_vm_id := id; os_type := "linux";
            cpu_cores := 2; memory_mb := 4096; disk_size_gb := 40 |}).

(** An orchestrator of the class as intended, with every method bound. *)
Definition mk_self (tpls : list (string * VMTemplate)) (ns : list ProxmoxNode)
    (us : list User) : Orchestrator :=
  {| playbook_dir_cfg := None; proxmox_config := ""; templates := tpls;
     nodes := ns; users := us; methods := all_methods |}.

Definition idle : Proc := {| cwd := "/srv/deploy"; log := []; trace := [] |}.

(** [os.chdir] as the operating system resolves it: an absolute path is
    taken as it is, a relative one is appended to the current directory. *)
Definition resolve (current path : string) : string :=
  match path with
  | String "/" _ => path
  | _ => current +:+ "/" +:+ path
  end.

(** A world in which every file operation succeeds, [run] answers the
    subprocess calls from the directory and the command line, [vmids] decodes the answers of [pvesh] and [found]
    tells which paths exist. *)
Definition world_of (run : string → list string → outcome string)
    (vmids : string → outcome (list Z)) (found : string → bool) : World :=
  {| w_run := λ _ dir argv, run dir argv;
     w_chdir := λ _ current path, Returns (resolve current path);
     w_exists := λ _ path, found path;
     w_makedirs := λ _ _, Returns tt;
     w_render := λ _ _ _ _, Returns tt;
     w_read_json := λ _ _, Returns "{}";
     w_write_json := λ _ _ _, Returns tt;
     w_json_loads := λ doc, Returns doc;
     w_json_vmids := vmids |}.

(** The cluster of the allocator scenario: one node, on which the
    identifiers 500, 501 and 503 are in use. *)
Definition busy_doc : string := "[{vmid: 500}, {vmid: 501}, {vmid: 503}]".

Definition busy_vmids (doc : string) : outcome (list Z) :=
  if decide (doc = busy_doc) then Returns [500; 501; 503]%Z
  else Raises (PyError "JSONDecodeError" "Expecting value").

Definition busy_world : World :=
  world_of (λ _ _, Returns busy_doc) busy_vmids (λ _, true).

Definition busy_self : Orchestrator :=
  mk_self [mk_template "desktop" 9000] [mk_node "pve1"]
    [mk_user "alice"; mk_user "bob"; mk_user "carol"].

(** A cluster of two nodes whose second node does not answer. *)
Definition flaky_run (dir : string) (argv : list string) : outcome string :=
  if decide (argv = pvesh_cmd (mk_node "pve1")) then Returns busy_doc
  else Raises (CalledProcessError "Command 'pvesh' returned non-zero exit status 2."
                 "connection refused").

Definition flaky_world : World := world_of flaky_run busy_vmids (λ _, true).

Definition flaky_self : Orchestrator :=
  mk_self [mk_template "desktop" 9000] [mk_node "pve1"; mk_node "pve2"]
    [mk_user "alice"; mk_user "bob"].

(** A roster of four users and a catalog of two templates. *)
Definition small_self : Orchestrator :=
  mk_self [mk_template "desktop" 9000; mk_template "server" 9001]
    [mk_node "pve1"; mk_node "pve2"; mk_node "pve3"]
    [mk_user "alice"; mk_user "bob"; mk_user "carol"; mk_user "dave"].

(** A roster in which two rows carry the same username. *)
Definition twin_self : Orchestrator :=
  mk_self [mk_template "desktop" 9000] [mk_node "pve1"]
    [mk_user "alice"; mk_user "alice"].

(** [ceil_div n b] is ⌈n / b⌉ for [b ≥ 1]. *)
Definition ceil_div (n b : nat) : nat := (n + b - 1) / b.

(** The batches before the first failure: the state in which the loop
    reaches the batch after [bs] when every batch of [bs] succeeds. *)
Fixpoint all_succeed (w : World) (self : Orchestrator)
    (bs : list (list User * string)) (st : Proc) : option Proc :=
  match bs with
  | [] => Some st
  | (batch_users, batch_id) :: rest =>
      match self_call self m_deploy_batch
              (deploy_batch w self batch_users batch_id) st with
      | (Returns true, st') => all_succeed w self rest st'
      | _ => None
      end
  end.

(** The decimal value of a string of digits. *)
Definition parse_nat (s : string) : option nat :=
  Nat.of_uint <$> NilEmpty.uint_of_string s.

(** What the loop of [calculate_load_distribution] makes of the user at
    roster position [i]. *)
Definition distributed_user (node_names keys : list string) (i : nat)
    (user : User) : User :=
  set_vm_assignments user (assign_vms_from node_names i 0 keys ∅).

Fixpoint distributed_users (node_names keys : list string) (i : nat)
    (us : list User) : list User :=
  match us with
  | [] => []
  | user :: rest =>
      distributed_user node_names keys i user
        :: distributed_users node_names keys (S i) rest
  end.

(** Of the users [us'] at the roster positions from [i] on, those whose
    target node [node_names[position % len(node_names)]] is [x]. *)
Fixpoint routed_to (node_names : list string) (x : string) (i : nat)
    (us' : list User) : list User :=
  match us' with
  | [] => []
  | user :: rest =>
      if decide (node_names !!! (i mod length node_names) = x)
      then user :: routed_to node_names x (S i) rest
      else routed_to node_names x (S i) rest
  end.

(** The value of an outcome, or a default when it raised. *)
Definition returned {A} (d : A) (o : outcome A) : A :=
  match o with
  | Returns v => v
  | Raises _ => d
  end.

(** A cluster whose first three nodes carry the same name. *)
Definition namesake_self : Orchestrator :=
  mk_self [mk_template "desktop" 9000]
    [mk_node "pve1"; mk_node "pve1"; mk_node "pve1"; mk_node "pve2"]
    (mk_user <$> ["alice"; "bob"; "carol"; "dave"]).

(** Three nodes, seven users, two templates. *)
Definition seven_self : Orchestrator :=
  mk_self [mk_template "desktop" 9000; mk_template "server" 9001]
    [mk_node "pve1"; mk_node "pve2"; mk_node "pve3"]
    (mk_user <$> ["u0"; "u1"; "u2"; "u3"; "u4"; "u5"; "u6"]).

(** A world in which [terraform apply] fails for the second batch. *)
Definition second_fails_run (dir : string) (argv : list string) : outcome string :=
  if decide (dir = "/srv/deploy/terraform_batches/batch_batch_002"
             ∧ argv = ["terraform"; "apply"; "tfplan"])
  then Raises (CalledProcessError "Command 'terraform' returned non-zero exit status 1."
                 "Error: VM 503 already exists")
  else Returns "ok".

Definition second_fails_world : World :=
  world_of second_fails_run (λ _, Returns []) (λ _, true).

Definition five_self : Orchestrator :=
  mk_self [mk_template "desktop" 9000] [mk_node "pve1"; mk_node "pve2"]
    (mk_user <$> ["alice"; "bob"; "carol"; "dave"; "erin"]).

(** [st'] continues [st]: the working directory is the same, the log has
    grown at its end, and the trace has grown by events that satisfy [P]. *)
Definition continues (P : event → Prop) (st st' : Proc) : Prop :=
  cwd st' = cwd st ∧
  (∃ records, log st' = log st ++ records) ∧
  ∃ events, trace st' = trace st ++ events ∧ Forall P events.

(** From a state whose working directory is [d], [m] continues the state
    with events that satisfy [P], whatever its outcome. *)
Definition keeps {A} (P : event → Prop) (d : string) (m : M A) : Prop :=
  ∀ st, cwd st = d → continues P st (m st).2.



















(** * Properties *)

(** ** The monad *)

Lemma bind_returns {A B} (m : M A) (k : A → M B) st v st' :
  m st = (Returns v, st') → bind m k st = k v st'.
Proof. intros H. unfold bind. by rewrite H. Qed.

Lemma bind_raises {A B} (m : M A) (k : A → M B) st e st' :
  m st = (Raises e, st') → bind m k st = (Raises e, st').
Proof. intros H. unfold bind. by rewrite H. Qed.


Lemma try_except_raises {A} (body : M A) handler st e st' :
  body st = (Raises e, st') → try_except body handler st = handler e st'.
Proof. intros H. unfold try_except. by rewrite H. Qed.

(** ** The allocator *)

Section next_free.
Implicit Types (E : gset Z) (c : Z).

Lemma next_free_from_spec fuel E c :
  size (filter (λ x, c ≤ x)%Z E) ≤ fuel →
  let r := next_free_from fuel E c in
  (c ≤ r)%Z ∧ (r ∉ E) ∧ (∀ x, (c ≤ x < r)%Z → x ∈ E).
Proof.
  revert c. induction fuel as [|fuel IH]; intros c Hsz; simpl.
  - assert (c ∉ E) as Hc.
    { intros Hin.
      assert (filter (λ x, c ≤ x)%Z E = ∅) as Hemp
        by (apply leibniz_equiv, size_empty_inv; lia).
      assert (c ∈ filter (λ x, c ≤ x)%Z E) as Hf
        by (apply elem_of_filter; split; [lia|done]).
      rewrite Hemp in Hf. set_solver. }
    split; [lia|]. split; [done|]. intros x Hx. lia.
  - destruct (decide (c ∈ E)) as [Hin|Hnin].
    + assert (filter (λ x, c + 1 ≤ x)%Z E ⊂ filter (λ x, c ≤ x)%Z E) as Hsub.
      { split.
        - intros x. rewrite !elem_of_filter. intros [? ?]. split; [lia|done].
        - intros Hback.
          assert (c ∈ filter (λ x, c + 1 ≤ x)%Z E) as Hc.
          { apply Hback. apply elem_of_filter. split; [lia|done]. }
          apply elem_of_filter in Hc. lia. }
      apply subset_size in Hsub.
      destruct (IH (c + 1)%Z) as (Hle & Hfree & Hused); [lia|].
      split; [lia|]. split; [done|].
      intros x Hx. destruct (decide (x = c)) as [->|Hne]; [done|].
      apply Hused. lia.
    + split; [lia|]. split; [done|]. intros x Hx. lia.
Qed.

(** The loop ends on the least identifier from [start_id] on that is not
    in use. *)
Lemma next_free_spec E start_id :
  (start_id ≤ next_free E start_id)%Z ∧ (next_free E start_id ∉ E) ∧
  (∀ x, (start_id ≤ x < next_free E start_id)%Z → x ∈ E).
Proof.
  apply next_free_from_spec. apply subseteq_size.
  intros x. rewrite elem_of_filter. tauto.
Qed.

Lemma next_free_unused E start_id : start_id ∉ E → next_free E start_id = start_id.
Proof.
  intros Hnin. destruct (next_free_spec E start_id) as (Hle & _ & Hused).
  destruct (decide (next_free E start_id = start_id)) as [|Hne]; [done|].
  exfalso. apply Hnin, Hused. lia.
Qed.
End next_free.


Lemma get_next_available_vm_id_degraded w self start_id st e st1 :
  query_existing_ids w (nodes self) ∅ st = (Raises e, st1) →
  get_next_available_vm_id w self start_id st =
    (Returns start_id,
     add_log WARNING ("Could not query existing VM IDs: " +:+ exn_str e) st1).
Proof.
  intros H. unfold get_next_available_vm_id.
  erewrite try_except_raises; [|by apply bind_raises]. done.
Qed.

Lemma assign_user_ids_keys user keys acc :
  assign_user_ids user keys acc = assign_keys (vm_key user <$> keys) acc.
Proof.
  unfold assign_user_ids, assign_keys. revert acc.
  induction keys as [|k keys IH]; intros [m c]; simpl; [done|]. apply IH.
Qed.

Lemma assign_keys_app ks1 ks2 acc :
  assign_keys (ks1 ++ ks2) acc = assign_keys ks2 (assign_keys ks1 acc).
Proof. unfold assign_keys. apply foldl_app. Qed.

Lemma assign_all_ids_keys us keys acc :
  assign_all_ids us keys acc = assign_keys (all_vm_keys us keys) acc.
Proof.
  unfold assign_all_ids, all_vm_keys. revert acc.
  induction us as [|u us IH]; intros acc; simpl; [done|].
  rewrite IH, assign_keys_app. by rewrite assign_user_ids_keys.
Qed.

Lemma assign_keys_counter ks m c :
  (assign_keys ks (m, c)).2 = (c + Z.of_nat (length ks))%Z.
Proof.
  revert m c. induction ks as [|k ks IH]; intros m c; simpl; [lia|].
  unfold assign_keys in *. simpl. rewrite IH. lia.
Qed.

Lemma assign_keys_snoc ks k m c :
  assign_keys (ks ++ [k]) (m, c) =
    (<[k := (c + Z.of_nat (length ks))%Z]> (assign_keys ks (m, c)).1,
     (c + Z.of_nat (length ks) + 1)%Z).
Proof.
  rewrite assign_keys_app.
  pose proof (assign_keys_counter ks m c) as Hc.
  destruct (assign_keys ks (m, c)) as [m' c']. simpl in *. by subst.
Qed.

(** An entry of the result is an entry of the initial map or the identifier
    of a position of its key. *)
Lemma assign_keys_lookup ks m c k v :
  (assign_keys ks (m, c)).1 !! k = Some v →
  m !! k = Some v ∨ (∃ p, ks !! p = Some k ∧ v = (c + Z.of_nat p)%Z).
Proof.
  induction ks as [|k' ks IH] using rev_ind; intros Hl; [by left|].
  rewrite assign_keys_snoc in Hl. simpl in Hl.
  rewrite lookup_insert in Hl. case_decide as Hk.
  - simplify_eq. right. exists (length ks). split; [|done].
    by rewrite lookup_app_r, Nat.sub_diag.
  - destruct (IH Hl) as [?|(p & Hp & ->)]; [by left|].
    right. exists p. split; [|done]. by apply lookup_app_l_Some.
Qed.

(** With pairwise distinct keys, the key at position [p] gets [start + p]. *)
Lemma assign_keys_lookup_nodup ks m c p k :
  NoDup ks → ks !! p = Some k →
  (assign_keys ks (m, c)).1 !! k = Some (c + Z.of_nat p)%Z.
Proof.
  revert p k. induction ks as [|k' ks IH] using rev_ind; intros p k Hnd Hp; [done|].
  apply NoDup_app in Hnd as (Hnd & Hnin & _).
  rewrite assign_keys_snoc. simpl.
  destruct (decide (p < length ks)) as [Hlt|Hge].
  - rewrite lookup_app_l in Hp by done.
    rewrite lookup_insert_ne; [by apply IH|].
    intros ->. eapply Hnin; [by eapply list_elem_of_lookup_2|]. set_solver.
  - rewrite lookup_app_r in Hp by lia.
    destruct (p - length ks) as [|q] eqn:Hq; simpl in Hp; [|done].
    simplify_eq. rewrite lookup_insert_eq. f_equal. lia.
Qed.

Lemma assign_keys_dom ks m c :
  dom (assign_keys ks (m, c)).1 = dom m ∪ list_to_set ks.
Proof.
  induction ks as [|k ks IH] using rev_ind; [set_solver|].
  rewrite assign_keys_snoc. simpl. rewrite dom_insert_L, IH, list_to_set_app_L.
  set_solver.
Qed.

Lemma assign_keys_values_inj ks c k1 k2 v :
  (assign_keys ks (∅, c)).1 !! k1 = Some v →
  (assign_keys ks (∅, c)).1 !! k2 = Some v → k1 = k2.
Proof.
  intros H1 H2.
  apply assign_keys_lookup in H1 as [H1|(p1 & Hp1 & ->)]; [done|].
  apply assign_keys_lookup in H2 as [H2|(p2 & Hp2 & Heq)]; [done|].
  assert (p1 = p2) as -> by lia. congruence.
Qed.

Lemma assign_keys_values_range ks c k v :
  (assign_keys ks (∅, c)).1 !! k = Some v →
  (c ≤ v < c + Z.of_nat (length ks))%Z.
Proof.
  intros H. apply assign_keys_lookup in H as [H|(p & Hp & ->)]; [done|].
  apply lookup_lt_Some in Hp. lia.
Qed.

Lemma length_all_vm_keys us keys :
  length (all_vm_keys us keys) = length us * length keys.
Proof.
  unfold all_vm_keys. induction us as [|u us IH]; [done|].
  rewrite bind_cons, length_app, length_fmap, IH. done.
Qed.

(** The pair of the user at roster position [i] and the template at catalog
    position [j] is visited at position [i * |templates| + j]. *)
Lemma all_vm_keys_lookup us keys i j user vm_type :
  us !! i = Some user → keys !! j = Some vm_type →
  all_vm_keys us keys !! (i * length keys + j) = Some (vm_key user vm_type).
Proof.
  unfold all_vm_keys. revert i. induction us as [|u us IH]; intros i Hi Hj; [done|].
  rewrite bind_cons. destruct i as [|i]; simpl in *.
  - simplify_eq. rewrite lookup_app_l.
    + by rewrite list_lookup_fmap, Hj.
    + rewrite length_fmap. by eapply lookup_lt_Some.
  - rewrite lookup_app_r; rewrite length_fmap; [|lia].
    replace (length keys + i * length keys + j - length keys)
      with (i * length keys + j) by lia.
    by apply IH.
Qed.

Lemma generate_vm_ids_start w self start st :
  generate_vm_ids w self (Some start) st =
    (Returns (assign_keys (all_vm_keys (users self) (template_keys self))
                (∅, start)).1, st).
Proof. unfold generate_vm_ids, bind, ret. by rewrite assign_all_ids_keys. Qed.

Lemma self_call_bound {A} self m (body : M A) :
  methods self m = true → self_call self m body = body.
Proof. intros H. unfold self_call. by rewrite H. Qed.


Lemma generate_vm_ids_none w self st start st1 :
  methods self m_get_next_available_vm_id = true →
  get_next_available_vm_id w self 500%Z st = (Returns start, st1) →
  generate_vm_ids w self None st =
    (Returns (assign_keys (all_vm_keys (users self) (template_keys self))
                (∅, start)).1, st1).
Proof.
  intros Hb H. unfold generate_vm_ids. rewrite self_call_bound by done.
  rewrite (bind_returns _ _ _ _ _ H).
  unfold ret. by rewrite assign_all_ids_keys.
Qed.

(** A failing node makes the whole query fail, whatever the nodes before it
    answered. *)
Lemma query_existing_ids_fails w pre node post E0 st E1 st1 e st2 :
  query_existing_ids w pre E0 st = (Returns E1, st1) →
  query_node w node st1 = (Raises e, st2) →
  query_existing_ids w (pre ++ node :: post) E0 st = (Raises e, st2).
Proof.
  revert E0 st. induction pre as [|n pre IH]; intros E0 st Hpre Hnode; simpl in *.
  - unfold ret in Hpre. simplify_eq. by apply bind_raises.
  - unfold bind in *. destruct (query_node w n st) as [[vms|e'] st']; [|done].
    by apply IH.
Qed.



(** C1 at the scenario of the specification.  The cluster reports 500, 501
    and 503 in use; there are three pairs of a user and a template.
    [get_next_available_vm_id] with floor 500 returns 502, the first free
    identifier, and [generate_vm_ids] from 502 hands out 502, 503 and 504:
    503 although it is in use, and not 505.  The same map comes out of
    [generate_vm_ids] without a start identifier on an object that has
    [get_next_available_vm_id] as a method. *)
Theorem allocator_hands_out_used_identifier :
  let E : gset Z := {[500; 501; 503]}%Z in
  let vm_id_map : gmap string Z :=
    {["alice_desktop" := 502; "bob_desktop" := 503; "carol_desktop" := 504]}%Z in
  (query_existing_ids busy_world (nodes busy_self) ∅ idle).1 = Returns E ∧
  (get_next_available_vm_id busy_world busy_self 500%Z idle).1 = Returns 502%Z ∧
  length (users busy_self) * length (templates busy_self) = 3 ∧
  (generate_vm_ids busy_world busy_self (Some 502%Z) idle).1 = Returns vm_id_map ∧
  (generate_vm_ids busy_world (with_methods busy_self all_methods) None idle).1 =
    Returns vm_id_map ∧
  vm_id_map !! "bob_desktop" = Some 503%Z ∧ 503%Z ∈ E ∧
  (∀ k, vm_id_map !! k ≠ Some 505%Z) ∧
  ¬ (∀ k v, vm_id_map !! k = Some v → v ∉ E).
Proof.
  intros E vm_id_map.
  assert (503%Z ∈ E) as Hin
    by (unfold E; rewrite !elem_of_union, !elem_of_singleton; auto).
  split; [vm_compute; reflexivity|]. split; [vm_compute; reflexivity|].
  split; [done|]. split; [vm_compute; reflexivity|].
  split; [vm_compute; reflexivity|].
  split; [done|]. split; [done|]. split.
  - intros k Hk. unfold vm_id_map in Hk.
    repeat (rewrite lookup_insert in Hk; case_decide; [by simplify_eq|]).
    rewrite lookup_singleton in Hk. case_decide; by simplify_eq.
  - intros H. by apply (H "bob_desktop" 503%Z).
Qed.

(** The query only adds to the trace: the log and the working directory are
    as before. *)
Lemma query_node_frame w node st :
  log (query_node w node st).2 = log st ∧ cwd (query_node w node st).2 = cwd st.
Proof.
  unfold query_node, bind, subprocess_run, lift_outcome.
  destruct (w_run w (trace st) (cwd st) (pvesh_cmd node)); done.
Qed.

Lemma query_existing_ids_frame w ns E st :
  log (query_existing_ids w ns E st).2 = log st ∧
  cwd (query_existing_ids w ns E st).2 = cwd st.
Proof.
  revert E st. induction ns as [|n ns IH]; intros E st; simpl; [done|].
  unfold bind. pose proof (query_node_frame w n st) as [Hl Hc].
  destruct (query_node w n st) as [[vms|e] st']; simpl in *; [|done].
  destruct (IH (E ∪ list_to_set vms) st') as [Hl' Hc']. split; congruence.
Qed.

(** C6.  When the query of a node fails, be it the first node or a later
    one after other nodes answered, [get_next_available_vm_id] does not
    raise: it returns the floor it was given, whatever the earlier nodes
    reported, as it does when no identifier is in use, and the only change
    to the log is one more warning.  A caller that reaches it through
    [self], as [generate_vm_ids] does on an object that has the method,
    then numbers from 500. *)
Theorem query_failure_degrades w self pre node post E1 st st1 e st2 :
  nodes self = pre ++ node :: post →
  query_existing_ids w pre ∅ st = (Returns E1, st1) →
  query_node w node st1 = (Raises e, st2) →
  let warning := (WARNING, "Could not query existing VM IDs: " +:+ exn_str e) in
  ∃ st3,
    log st3 = log st ++ [warning] ∧ cwd st3 = cwd st ∧ trace st3 = trace st2 ∧
    (∀ start_id,
       get_next_available_vm_id w self start_id st = (Returns start_id, st3) ∧
       next_free ∅ start_id = start_id) ∧
    (methods self m_get_next_available_vm_id = true →
     generate_vm_ids w self None st =
       (Returns (assign_all_ids (users self) (template_keys self) (∅, 500%Z)).1, st3)).
Proof.
  intros Hnodes Hpre Hnode warning.
  pose proof (query_existing_ids_fails w pre node post ∅ st E1 st1 e st2 Hpre Hnode)
    as Hq.
  rewrite <- Hnodes in Hq.
  exists (add_log WARNING ("Could not query existing VM IDs: " +:+ exn_str e) st2).
  pose proof (query_existing_ids_frame w (nodes self) ∅ st) as [Hl Hc].
  rewrite Hq in Hl, Hc. simpl in Hl, Hc.
  split; [by simpl; rewrite Hl|]. split; [done|]. split; [done|]. split.
  - intros start_id. split; [by apply get_next_available_vm_id_degraded|].
    apply next_free_unused. set_solver.
  - intros Hb. unfold generate_vm_ids. rewrite self_call_bound by done.
    by rewrite (bind_returns _ _ _ _ _
                  (get_next_available_vm_id_degraded w self 500%Z st e st2 Hq)).
Qed.

Lemma query_failure_degrades_witness :
  ∃ st3,
    log st3 =
      [(WARNING, "Could not query existing VM IDs: "
                 +:+ "Command 'pvesh' returned non-zero exit status 2.")] ∧
    get_next_available_vm_id flaky_world flaky_self 500%Z idle = (Returns 500%Z, st3).
Proof.
  destruct (query_failure_degrades flaky_world flaky_self
              [mk_node "pve1"] (mk_node "pve2") [] {[500; 501; 503]}%Z idle
              (query_existing_ids flaky_world [mk_node "pve1"] ∅ idle).2
              (CalledProcessError "Command 'pvesh' returned non-zero exit status 2."
                 "connection refused")
              (query_node flaky_world (mk_node "pve2")
                 (query_existing_ids flaky_world [mk_node "pve1"] ∅ idle).2).2)
    as (st3 & Hlog & _ & _ & Hnext & _).
  - reflexivity.
  - vm_compute; reflexivity.
  - vm_compute; reflexivity.
  - exists st3. split; [exact Hlog|]. apply Hnext.
Defined.

(** ** The identifier map of the whole roster *)

Lemma create_terraform_configs_render w self user_batch batch_id st start st2 :
  let batch_dir := "terraform_batches/batch_" +:+ batch_id in
  let st1 := add_event (EvMakedirs batch_dir (Returns tt)) st in
  methods self m_generate_vm_ids = true →
  methods self m_get_next_available_vm_id = true →
  w_makedirs w (trace st) batch_dir = Returns tt →
  get_next_available_vm_id w self 500%Z st1 = (Returns start, st2) →
  ∃ r,
    trace (create_terraform_configs w self user_batch batch_id st).2
      !! length (trace st2) =
    Some (EvRender "terraform/main.tf.j2" (batch_dir +:+ "/main.tf")
            (TerraformVars user_batch (templates self)
               (assign_all_ids (users self) (template_keys self) (∅, start)).1
               (proxmox_config self) batch_id) r).
Proof.
  intros batch_dir st1 Hgen Hget Hmk Hnext.
  unfold create_terraform_configs. fold batch_dir.
  unfold bind at 1. unfold os_makedirs. rewrite Hmk. fold st1.
  rewrite (self_call_bound self m_generate_vm_ids) by done.
  unfold bind at 1, generate_vm_ids. rewrite self_call_bound by done.
  rewrite (bind_returns _ _ _ _ _ Hnext).
  unfold ret at 1.
  set (vars := TerraformVars _ _ _ _ _).
  unfold bind, render_to_file, logger, ret. simpl.
  exists (w_render w (trace st2) "terraform/main.tf.j2" (batch_dir +:+ "/main.tf") vars).
  repeat (match goal with
          | |- context [match ?r with Returns _ => _ | Raises _ => _ end] =>
              destruct r eqn:?; simpl
          end);
    repeat first [ rewrite lookup_app_l by (rewrite ?length_app; simpl; lia)
                 | rewrite lookup_app_r by (rewrite ?length_app; simpl; lia) ];
    rewrite ?Nat.sub_diag; simpl; congruence.
Qed.

Lemma get_next_available_vm_id_total w self start_id st :
  ∃ v st', get_next_available_vm_id w self start_id st = (Returns v, st').
Proof.
  unfold get_next_available_vm_id, try_except, bind, ret, logger.
  destruct (query_existing_ids w (nodes self) ∅ st) as [[E|e] st']; eauto.
Qed.

Lemma elem_of_all_vm_keys us keys k :
  k ∈ all_vm_keys us keys ↔
  ∃ user vm_type, user ∈ us ∧ vm_type ∈ keys ∧ k = vm_key user vm_type.
Proof.
  unfold all_vm_keys. rewrite list_elem_of_bind. split.
  - intros (u & Hk & Hu). apply list_elem_of_fmap in Hk as (t & -> & Ht). eauto.
  - intros (u & t & Hu & Ht & ->). exists u. split; [|done].
    apply list_elem_of_fmap. eauto.
Qed.

(** C10.  When the keys [username_template] of the pairs of the roster are
    pairwise distinct, the map of [generate_vm_ids] has exactly one entry
    per pair of a user of the whole roster and a template, the pair of user
    [i] and template [j] holding [start + i * |templates| + j]: the values
    are the consecutive integers from [start] on, pairwise distinct.
    On an object that has [create_terraform_configs], [generate_vm_ids] and
    [get_next_available_vm_id] as methods, [self.create_terraform_configs]
    passes the map of the whole roster to the template engine, whatever
    batch it is called for. *)
Theorem generate_vm_ids_whole_roster w self start st :
  NoDup (all_vm_keys (users self) (template_keys self)) →
  let count := length (users self) * length (templates self) in
  (∃ vm_id_map,
     generate_vm_ids w self (Some start) st = (Returns vm_id_map, st) ∧
     size vm_id_map = count ∧
     (∀ i j user vm_type,
        users self !! i = Some user → template_keys self !! j = Some vm_type →
        vm_id_map !! (username user +:+ "_" +:+ vm_type) =
          Some (start + Z.of_nat (i * length (templates self) + j))%Z) ∧
     (∀ k, is_Some (vm_id_map !! k) ↔
           ∃ user vm_type, user ∈ users self ∧ vm_type ∈ template_keys self ∧
                           k = username user +:+ "_" +:+ vm_type) ∧
     (∀ v, (∃ k, vm_id_map !! k = Some v) ↔ (start ≤ v < start + Z.of_nat count)%Z) ∧
     (∀ k1 k2 v, vm_id_map !! k1 = Some v → vm_id_map !! k2 = Some v → k1 = k2)) ∧
  (∀ user_batch batch_id st0,
     let batch_dir := "terraform_batches/batch_" +:+ batch_id in
     methods self m_create_terraform_configs = true →
     methods self m_generate_vm_ids = true →
     methods self m_get_next_available_vm_id = true →
     w_makedirs w (trace st0) batch_dir = Returns tt →
     ∃ first st2 r,
       generate_vm_ids w self None (add_event (EvMakedirs batch_dir (Returns tt)) st0) =
         (Returns (assign_all_ids (users self) (template_keys self) (∅, first)).1, st2) ∧
       trace (self_call self m_create_terraform_configs
                (create_terraform_configs w self user_batch batch_id) st0).2
         !! length (trace st2) =
       Some (EvRender "terraform/main.tf.j2" (batch_dir +:+ "/main.tf")
               (TerraformVars user_batch (templates self)
                  (assign_all_ids (users self) (template_keys self) (∅, first)).1
                  (proxmox_config self) batch_id) r)).
Proof.
  intros Hnd count.
  assert (length (all_vm_keys (users self) (template_keys self)) = count) as Hlen.
  { rewrite length_all_vm_keys. unfold template_keys. by rewrite length_fmap. }
  split.
  - eexists. split; [apply generate_vm_ids_start|].
    set (ks := all_vm_keys (users self) (template_keys self)) in *.
    split; [|split; [|split; [|split]]].
    + rewrite <- size_dom, assign_keys_dom, dom_empty_L, (left_id_L ∅ (∪)).
      by rewrite size_list_to_set.
    + intros i j user vm_type Hi Hj.
      pose proof (all_vm_keys_lookup _ _ _ _ _ _ Hi Hj) as Hp.
      assert (length (template_keys self) = length (templates self)) as Hkeys
        by (unfold template_keys; by rewrite length_fmap).
      rewrite Hkeys in Hp. by apply assign_keys_lookup_nodup.
    + intros k. rewrite <- elem_of_dom, assign_keys_dom, dom_empty_L.
      rewrite (left_id_L ∅ (∪)), elem_of_list_to_set.
      apply elem_of_all_vm_keys.
    + intros v. split.
      * intros (k & Hk). apply assign_keys_values_range in Hk. lia.
      * intros Hv.
        destruct (lookup_lt_is_Some_2 ks (Z.to_nat (v - start))) as [k Hk]; [lia|].
        exists k. rewrite (assign_keys_lookup_nodup ks ∅ start _ k Hnd Hk).
        f_equal. lia.
    + intros k1 k2 v. apply assign_keys_values_inj.
  - intros user_batch batch_id st0 batch_dir Hcreate Hgen Hget Hmk.
    destruct (get_next_available_vm_id_total w self 500%Z
                (add_event (EvMakedirs batch_dir (Returns tt)) st0))
      as (first & st2 & Hnext).
    destruct (create_terraform_configs_render w self user_batch batch_id st0
                first st2 Hgen Hget Hmk Hnext) as [r Hr].
    exists first, st2, r. rewrite (self_call_bound self m_create_terraform_configs) by done.
    split; [|exact Hr].
    rewrite (generate_vm_ids_none _ _ _ _ _ Hget Hnext). by rewrite assign_all_ids_keys.
Qed.

Lemma generate_vm_ids_whole_roster_witness :
  ∃ vm_id_map,
    generate_vm_ids busy_world small_self (Some 700%Z) idle = (Returns vm_id_map, idle) ∧
    size vm_id_map = 8 ∧
    vm_id_map !! "carol_server" = Some 705%Z.
Proof.
  destruct (generate_vm_ids_whole_roster busy_world small_self 700%Z idle)
    as [(m & Hm & Hsize & Hpairs & _) _].
  - vm_compute. repeat constructor; set_solver.
  - exists m. split; [exact Hm|]. split; [exact Hsize|].
    apply (Hpairs 2 1 (mk_user "carol") "server"); reflexivity.
Defined.

(** C10 (as stated) fails when two rows of the roster carry the same
    username: the two pairs share their key, the map has one entry for
    them, and its only value is not the starting identifier. *)
Lemma generate_vm_ids_twin_counterexample :
  let vm_id_map : gmap string Z := {["alice_desktop" := 701%Z]} in
  (generate_vm_ids busy_world twin_self (Some 700%Z) idle).1 = Returns vm_id_map ∧
  length (users twin_self) * length (templates twin_self) = 2 ∧
  size vm_id_map = 1 ∧
  ¬ (∃ k, vm_id_map !! k = Some 700%Z).
Proof.
  intros vm_id_map. split; [vm_compute; reflexivity|]. split; [reflexivity|].
  split; [vm_compute; reflexivity|].
  intros [k Hk]. unfold vm_id_map in Hk. rewrite lookup_singleton in Hk.
  case_decide; by simplify_eq.
Qed.

(** ** Batch partitioning *)

Section batches.
Implicit Types (us : list User) (B N i k : nat).

Lemma ceil_div_bounds N B : 1 ≤ B → N ≤ ceil_div N B * B < N + B.
Proof.
  intros HB. unfold ceil_div.
  pose proof (Nat.div_mod_eq (N + B - 1) B) as Heq.
  pose proof (Nat.mod_upper_bound (N + B - 1) B) as Hlt.
  set (q := (N + B - 1) / B) in *. set (r := (N + B - 1) mod B) in *. nia.
Qed.

Lemma ceil_div_0 B : 1 ≤ B → ceil_div 0 B = 0.
Proof. intros HB. unfold ceil_div. apply Nat.div_small. lia. Qed.

Lemma ceil_div_step N B : 1 ≤ B → 0 < N → ceil_div N B = S (ceil_div (N - B) B).
Proof.
  intros HB HN. unfold ceil_div.
  replace (N + B - 1) with ((N - 1) + 1 * B) by lia.
  rewrite Nat.div_add by lia. rewrite Nat.add_1_r. f_equal.
  destruct (decide (B ≤ N)) as [Hle|Hgt].
  - f_equal. lia.
  - rewrite !Nat.div_small; lia.
Qed.

(** [stop] turns are enough: the loop yields every multiple of the step
    below [stop]. *)
Lemma range_from_spec fuel i N B :
  1 ≤ B → N - i ≤ fuel →
  range_from fuel i N B = (λ k, i + k * B) <$> seq 0 (ceil_div (N - i) B).
Proof.
  intros HB. revert i. induction fuel as [|fuel IH]; intros i Hfuel; simpl.
  - replace (N - i) with 0 by lia. by rewrite ceil_div_0.
  - destruct (decide (i < N)) as [Hlt|Hge].
    + rewrite (ceil_div_step (N - i) B) by lia. simpl. f_equal; [lia|].
      rewrite IH by lia. replace (N - (i + B)) with (N - i - B) by lia.
      rewrite <- fmap_S_seq, <- list_fmap_compose.
      apply list_fmap_ext. intros _ k _. simpl. lia.
    + replace (N - i) with 0 by lia. by rewrite ceil_div_0.
Qed.

Lemma py_range_multiples N B :
  1 ≤ B → py_range N B = (λ k, k * B) <$> seq 0 (ceil_div N B).
Proof.
  intros HB. unfold py_range. rewrite range_from_spec by lia.
  by rewrite Nat.sub_0_r.
Qed.

Lemma make_batches_positive us batch_size :
  (1 ≤ batch_size)%Z →
  make_batches us batch_size =
    Returns ((λ k, make_batch us (Z.to_nat batch_size) (k * Z.to_nat batch_size))
               <$> seq 0 (ceil_div (length us) (Z.to_nat batch_size))).
Proof.
  intros HB. destruct batch_size as [|p|p]; [lia| |lia]. simpl.
  rewrite py_range_multiples by lia. by rewrite <- list_fmap_compose.
Qed.

Lemma concat_chunks us B n :
  concat ((λ k, take B (drop (k * B) us)) <$> seq 0 n) = take (n * B) us.
Proof.
  induction n as [|n IH]; [done|].
  rewrite seq_S, fmap_app, concat_app, IH. simpl.
  rewrite (right_id_L [] (++)), take_take_drop. f_equal. lia.
Qed.
End batches.

(** The creation of the batches, for a batch size of at least one. *)
Lemma make_batches_spec (us : list User) (batch_size : Z) :
  (1 ≤ batch_size)%Z →
  let B := Z.to_nat batch_size in
  let N := length us in
  ∃ user_batches,
    make_batches us batch_size = Returns user_batches ∧
    concat user_batches.*1 = us ∧
    length user_batches = ceil_div N B ∧
    N ≤ length user_batches * B < N + B ∧
    (N = 0 → user_batches = []) ∧
    (∀ k batch batch_id,
       user_batches !! k = Some (batch, batch_id) →
       batch = take B (drop (k * B) us) ∧
       1 ≤ length batch ≤ B ∧
       (S k < length user_batches → length batch = B) ∧
       batch_id = "batch_" +:+ format_03d (S k)) ∧
    (N = 32 → batch_size = 15%Z →
     length <$> user_batches.*1 = [15; 15; 2] ∧
     user_batches.*2 = ["batch_001"; "batch_002"; "batch_003"]).
Proof.
  intros HB B N. assert (1 ≤ B) as HB' by (unfold B; lia).
  eexists. split; [by apply make_batches_positive|]. fold B N.
  pose proof (ceil_div_bounds N B HB') as Hceil.
  assert (length ((λ k, make_batch us B (k * B)) <$> seq 0 (ceil_div N B))
          = ceil_div N B) as Hlen by (by rewrite length_fmap, length_seq).
  split; [|split; [|split; [|split; [|split]]]].
  - rewrite <- list_fmap_compose.
    rewrite (list_fmap_ext _ (λ k, take B (drop (k * B) us)) (seq 0 (ceil_div N B)))
      by done.
    rewrite concat_chunks. apply take_ge. fold N. lia.
  - exact Hlen.
  - rewrite Hlen. exact Hceil.
  - intros HN. rewrite HN, ceil_div_0 by done. done.
  - intros k batch batch_id Hk. rewrite Hlen.
    apply list_lookup_fmap_Some in Hk as (k' & Hk & Hk').
    apply lookup_seq in Hk' as [-> Hlt]. simpl in Hk.
    unfold make_batch in Hk. rewrite Nat.div_mul in Hk by lia.
    injection Hk as -> ->.
    rewrite length_take, length_drop. fold N.
    split; [done|]. split; [nia|]. split; [intros HS; nia|].
    by rewrite Nat.add_1_r.
  - intros HN ->. subst B. change (Z.to_nat 15) with 15 in *.
    rewrite HN. change (ceil_div 32 15) with 3. simpl.
    rewrite !length_take, !length_drop. fold N. rewrite HN. done.
Qed.

(** ** Load distribution *)

Section distribution.
Implicit Types (node_names keys : list string) (us : list User).

Lemma assign_vms_from_other node_names i j keys a t :
  t ∉ keys → assign_vms_from node_names i j keys a !! t = a !! t.
Proof.
  revert j a. induction keys as [|k keys IH]; intros j a Hnin; simpl; [done|].
  apply not_elem_of_cons in Hnin as [Hne Hnin].
  rewrite IH by done. by rewrite lookup_insert_ne.
Qed.

Lemma assign_vms_from_lookup node_names i j keys a q t :
  NoDup keys → keys !! q = Some t →
  assign_vms_from node_names i j keys a !! t =
    Some (node_names !!! ((i + (j + q)) mod length node_names)).
Proof.
  revert j a q. induction keys as [|k keys IH]; intros j a q Hnd Hq; [done|].
  apply NoDup_cons in Hnd as [Hnin Hnd]. destruct q as [|q]; simpl in *.
  - simplify_eq. rewrite assign_vms_from_other by done.
    rewrite lookup_insert_eq. by rewrite Nat.add_0_r.
  - rewrite (IH (S j) _ q) by done. do 3 f_equal. lia.
Qed.

Lemma assign_vms_from_dom node_names i j keys a :
  dom (assign_vms_from node_names i j keys a) = dom a ∪ list_to_set keys.
Proof.
  revert j a. induction keys as [|k keys IH]; intros j a; simpl.
  - by rewrite (right_id_L ∅ (∪)).
  - rewrite IH, dom_insert_L. set_solver.
Qed.

Lemma distributed_users_lookup node_names keys i us p :
  distributed_users node_names keys i us !! p =
    distributed_user node_names keys (i + p) <$> us !! p.
Proof.
  revert i p. induction us as [|u us IH]; intros i p; [done|].
  destruct p as [|p]; simpl.
  - by rewrite Nat.add_0_r.
  - rewrite IH. do 2 f_equal. lia.
Qed.

Lemma length_distributed_users node_names keys i us :
  length (distributed_users node_names keys i us) = length us.
Proof. revert i. induction us as [|u us IH]; intros i; simpl; [done|]. by rewrite IH. Qed.

(** With at least one node and every node name a key of [node_assignments],
    the loop raises nothing: it appends each user, as updated, to the list
    of its target node and leaves the other lists alone. *)
Lemma distribute_from_spec node_names keys i us
    (node_assignments : gmap string (list User)) :
  1 ≤ length node_names →
  (∀ x, x ∈ node_names → is_Some (node_assignments !! x)) →
  ∃ na,
    distribute_from node_names keys i us node_assignments =
      Returns (na, distributed_users node_names keys i us) ∧
    ∀ x, na !! x =
         (λ l, l ++ routed_to node_names x i (distributed_users node_names keys i us))
           <$> node_assignments !! x.
Proof.
  intros HM. revert i node_assignments.
  induction us as [|u us IH]; intros i node_assignments Hkeys; simpl.
  - exists node_assignments. split; [done|]. intros x.
    destruct (node_assignments !! x); simpl; [|done]. by rewrite (right_id_L [] (++)).
  - destruct (length node_names) as [|m] eqn:Hlen; [lia|]. rewrite <- Hlen.
    set (target := node_names !!! (i mod length node_names)).
    assert (target ∈ node_names) as Htarget.
    { apply list_elem_of_lookup_total_2. apply Nat.mod_upper_bound. lia. }
    destruct (Hkeys target Htarget) as [assigned Hassigned]. rewrite Hassigned.
    set (user' := set_vm_assignments u (assign_vms_from node_names i 0 keys ∅)).
    destruct (IH (S i) (<[target := assigned ++ [user']]> node_assignments))
      as (na & Hrun & Hna).
    { intros x Hx. rewrite lookup_insert. case_decide; [done|]. by apply Hkeys. }
    rewrite Hrun. exists na. split; [done|].
    intros x. rewrite Hna. fold target. unfold distributed_user. fold user'.
    rewrite lookup_insert. destruct (decide (target = x)) as [<-|Hne].
    + rewrite Hassigned. simpl. by rewrite <- (assoc_L (++)).
    + done.
Qed.

(** Whenever the loop returns, the roster it leaves is the roster it was
    given, each user with its assignments filled. *)
Lemma distribute_from_roster node_names keys i us
    (node_assignments na : gmap string (list User)) us' :
  distribute_from node_names keys i us node_assignments = Returns (na, us') →
  us' = distributed_users node_names keys i us.
Proof.
  revert i node_assignments na us'.
  induction us as [|u us IH]; intros i node_assignments na us' H; simpl in *.
  - by simplify_eq.
  - destruct (length node_names) as [|m]; [done|].
    destruct (node_assignments !! _) as [assigned|]; [|done].
    destruct (distribute_from _ _ _ _ _) as [[na1 us1]|e] eqn:Hrec; [|done].
    apply IH in Hrec. by simplify_eq.
Qed.

Lemma empty_assignments_lookup (ns : list ProxmoxNode) x :
  empty_assignments ns !! x =
    if decide (x ∈ node_name <$> ns) then Some [] else None.
Proof.
  unfold empty_assignments.
  induction ns as [|n ns IH] using rev_ind.
  - match goal with |- context [decide ?P] => destruct (decide P) as [H|H] end.
    + by apply elem_of_nil in H.
    + apply lookup_empty.
  - rewrite foldl_app. simpl. rewrite lookup_insert, IH, fmap_app. simpl.
    destruct (decide (node_name n = x)) as [<-|Hne].
    + rewrite decide_True; [done|]. rewrite elem_of_app, list_elem_of_singleton. by right.
    + destruct (decide (x ∈ node_name <$> ns)) as [Hin|Hnin].
      * rewrite decide_True; [done|]. rewrite elem_of_app. by left.
      * rewrite decide_False; [done|].
        rewrite elem_of_app, list_elem_of_singleton. naive_solver.
Qed.

(** [calculate_load_distribution] on a cluster of at least one node. *)
Lemma calculate_load_distribution_spec self st :
  1 ≤ length (nodes self) →
  let node_names := node_name <$> nodes self in
  let users' := distributed_users node_names (template_keys self) 0 (users self) in
  ∃ na st',
    calculate_load_distribution self st = (Returns (na, users'), st') ∧
    cwd st' = cwd st ∧ trace st' = trace st ∧
    ∀ x, na !! x =
         if decide (x ∈ node_names) then Some (routed_to node_names x 0 users')
         else None.
Proof.
  intros HM node_names users'.
  destruct (distribute_from_spec node_names (template_keys self) 0 (users self)
              (empty_assignments (nodes self))) as (na & Hrun & Hna).
  { unfold node_names. by rewrite length_fmap. }
  { intros x Hx. rewrite empty_assignments_lookup. by rewrite decide_True. }
  exists na. eexists. split; [|split; [|split]].
  - unfold calculate_load_distribution, bind, logger, lift_outcome.
    fold node_names. rewrite Hrun. reflexivity.
  - done.
  - done.
  - intros x. rewrite Hna, empty_assignments_lookup. fold node_names.
    case_decide; done.
Qed.

(** Counting the positions below [N] that a round robin over [M] slots
    sends to slot [j]. *)
Lemma round_robin_count M N j :
  1 ≤ M → j < M →
  length (filter (λ i, i mod M = j) (seq 0 N)) =
    N / M + (if decide (j < N mod M) then 1 else 0).
Proof.
  intros HM Hj. induction N as [|N IH].
  - simpl. rewrite Nat.Div0.div_0_l, Nat.Div0.mod_0_l. by rewrite decide_False by lia.
  - rewrite seq_S, filter_app, length_app, IH. simpl.
    pose proof (Nat.div_mod_eq N M) as HN. pose proof (Nat.mod_upper_bound N M) as HNr.
    pose proof (Nat.div_mod_eq (S N) M) as HS.
    pose proof (Nat.mod_upper_bound (S N) M) as HSr.
    set (q := N / M) in *. set (r := N mod M) in *.
    set (q' := S N / M) in *. set (r' := S N mod M) in *.
    assert ((q' = q ∧ r' = S r) ∨ (q' = S q ∧ r' = 0 ∧ S r = M)) as Hcases.
    { destruct (decide (S r < M)) as [Hlt|Hge].
      - left. split; symmetry.
        + apply (Nat.div_unique (S N) M q (S r)); nia.
        + apply (Nat.mod_unique (S N) M q (S r)); nia.
      - right. assert (S r = M) as HrM by lia. split; [|split; [|done]]; symmetry.
        + apply (Nat.div_unique (S N) M (S q) 0); nia.
        + apply (Nat.mod_unique (S N) M (S q) 0); nia. }
    rewrite filter_cons, filter_nil. fold r.
    destruct Hcases as [[-> ->]|(-> & -> & HrM)];
      repeat case_decide; simpl; lia.
Qed.

Lemma routed_to_length node_names x i us' :
  length (routed_to node_names x i us') =
    length (filter (λ p, node_names !!! (p mod length node_names) = x)
              (seq i (length us'))).
Proof.
  revert i. induction us' as [|u us' IH]; intros i; simpl; [done|].
  rewrite filter_cons. case_decide; simpl; by rewrite IH.
Qed.

Lemma elem_of_routed_to node_names x i us' p u :
  us' !! p = Some u → node_names !!! ((i + p) mod length node_names) = x →
  u ∈ routed_to node_names x i us'.
Proof.
  revert i p. induction us' as [|u' us' IH]; intros i p Hp Hx; [done|].
  destruct p as [|p]; simpl in *.
  - injection Hp as ->. rewrite Nat.add_0_r in Hx. rewrite decide_True by done.
    apply list_elem_of_here.
  - assert (u ∈ routed_to node_names x (S i) us') as Hin.
    { apply (IH (S i) p); [done|]. by replace (S i + p) with (i + S p) by lia. }
    case_decide; [by apply list_elem_of_further|done].
Qed.
End distribution.

Lemma node_names_lookup_total (ns : list ProxmoxNode) k node :
  ns !! k = Some node → (node_name <$> ns) !!! k = node_name node.
Proof.
  intros H. apply list_lookup_total_correct. by rewrite list_lookup_fmap, H.
Qed.

Lemma ceil_div_floor N M :
  1 ≤ M → ceil_div N M = N / M + (if decide (N mod M = 0) then 0 else 1).
Proof.
  intros HM. unfold ceil_div.
  pose proof (Nat.div_mod_eq N M) as HN. pose proof (Nat.mod_upper_bound N M) as Hr.
  set (q := N / M) in *. set (r := N mod M) in *.
  destruct (decide (r = 0)) as [H0|H0]; symmetry.
  - apply (Nat.div_unique _ M (q + 0) (M - 1)); nia.
  - apply (Nat.div_unique _ M (q + 1) (r - 1)); nia.
Qed.

(** C4.  On an object that has [calculate_load_distribution] as a method,
    with a cluster of [M ≥ 1] nodes (the keys of the template catalog, a
    dict, being pairwise distinct), [self.calculate_load_distribution()]
    raises nothing.  The list of a node name holds, in roster order, exactly
    the users at the positions [i] for which the node at position [i mod M]
    has that name; no other name has a list.  The user at roster position
    [i] is itself but for its assignments, which map every template, and
    nothing else, to a node: the template at catalog position [j] to the
    node at position [(i + j) mod M].  With 3 nodes, 7 users and 2
    templates, user 0 gets node 0 for template 0 and node 1 for template
    1. *)
Theorem load_distribution_round_robin self st :
  methods self m_calculate_load_distribution = true →
  1 ≤ length (nodes self) →
  NoDup (template_keys self) →
  let M := length (nodes self) in
  let node_names := node_name <$> nodes self in
  ∃ node_assignments users' st',
    self_call self m_calculate_load_distribution (calculate_load_distribution self) st =
      (Returns (node_assignments, users'), st') ∧
    length users' = length (users self) ∧
    (∀ x, node_assignments !! x =
          if decide (x ∈ node_names)
          then Some (routed_to node_names x 0 users') else None) ∧
    (∀ i user,
       users self !! i = Some user →
       ∃ user' assignments target assigned,
         users' !! i = Some user' ∧
         user' = set_vm_assignments user assignments ∧
         nodes self !! (i mod M) = Some target ∧
         node_assignments !! node_name target = Some assigned ∧
         user' ∈ assigned ∧
         dom assignments = list_to_set (template_keys self) ∧
         ∀ j vm_type,
           template_keys self !! j = Some vm_type →
           ∃ vm_node, nodes self !! ((i + j) mod M) = Some vm_node ∧
                      assignments !! vm_type = Some (node_name vm_node)) ∧
    (∀ n0 n1 n2 t0 t1 user0,
       nodes self = [n0; n1; n2] → template_keys self = [t0; t1] →
       length (users self) = 7 → users self !! 0 = Some user0 →
       ∃ user0' assignments assigned,
         users' !! 0 = Some user0' ∧
         vm_assignments user0' = Some assignments ∧
         node_assignments !! node_name n0 = Some assigned ∧ user0' ∈ assigned ∧
         assignments !! t0 = Some (node_name n0) ∧
         assignments !! t1 = Some (node_name n1)).
Proof.
  intros Hbound HM Hnd M node_names. rewrite self_call_bound by done.
  destruct (calculate_load_distribution_spec self st HM) as (na & st' & Hrun & _ & _ & Hna).
  fold node_names in Hrun, Hna.
  set (keys := template_keys self) in *.
  set (users' := distributed_users node_names keys 0 (users self)) in *.
  assert (length node_names = M) as HlenM by (unfold node_names; by rewrite length_fmap).
  assert (∀ i user,
       users self !! i = Some user →
       ∃ user' assignments target assigned,
         users' !! i = Some user' ∧
         user' = set_vm_assignments user assignments ∧
         nodes self !! (i mod M) = Some target ∧
         na !! node_name target = Some assigned ∧
         user' ∈ assigned ∧
         dom assignments = list_to_set keys ∧
         ∀ j vm_type,
           keys !! j = Some vm_type →
           ∃ vm_node, nodes self !! ((i + j) mod M) = Some vm_node ∧
                      assignments !! vm_type = Some (node_name vm_node)) as Hgen.
  { intros i user Hi.
    destruct (lookup_lt_is_Some_2 (nodes self) (i mod M)) as [target Htarget].
    { apply Nat.mod_upper_bound. unfold M. lia. }
    pose proof (node_names_lookup_total _ _ _ Htarget) as Hname. fold node_names in Hname.
    assert (users' !! i = Some (distributed_user node_names keys i user)) as Hi'.
    { unfold users'. by rewrite distributed_users_lookup, Hi. }
    exists (distributed_user node_names keys i user),
           (assign_vms_from node_names i 0 keys ∅), target,
           (routed_to node_names (node_name target) 0 users').
    split; [done|]. split; [done|]. split; [done|]. split; [|split; [|split]].
    - rewrite Hna, decide_True; [done|].
      rewrite <- Hname. apply list_elem_of_lookup_total_2.
      rewrite HlenM. apply Nat.mod_upper_bound. unfold M. lia.
    - apply (elem_of_routed_to _ _ 0 _ i); [done|]. by rewrite HlenM.
    - rewrite assign_vms_from_dom, dom_empty_L. by rewrite (left_id_L ∅ (∪)).
    - intros j vm_type Hj.
      destruct (lookup_lt_is_Some_2 (nodes self) ((i + j) mod M)) as [vm_node Hnode].
      { apply Nat.mod_upper_bound. unfold M. lia. }
      exists vm_node. split; [done|].
      rewrite (assign_vms_from_lookup _ _ _ _ _ j vm_type Hnd Hj).
      rewrite HlenM. simpl. f_equal. by apply node_names_lookup_total. }
  exists na, users', st'. split; [done|]. split; [|split; [done|split; [done|]]].
  - apply length_distributed_users.
  - intros n0 n1 n2 t0 t1 user0 Hnodes Hkeys HN H0.
    destruct (Hgen 0 user0 H0)
      as (user0' & assignments & target & assigned & Hu & -> & Ht & Hna0 & Hin & _ & Hvm).
    assert (M = 3) as HM3 by (unfold M; by rewrite Hnodes).
    rewrite HM3, Hnodes in Ht. simpl in Ht. injection Ht as <-.
    exists (set_vm_assignments user0 assignments), assignments, assigned.
    split; [done|]. split; [done|]. split; [done|]. split; [done|].
    fold keys in Hkeys. split.
    + destruct (Hvm 0 t0) as (vm_node & Hnode & Ha); [by rewrite Hkeys|].
      rewrite HM3, Hnodes in Hnode. simpl in Hnode. by injection Hnode as <-.
    + destruct (Hvm 1 t1) as (vm_node & Hnode & Ha); [by rewrite Hkeys|].
      rewrite HM3, Hnodes in Hnode. simpl in Hnode. by injection Hnode as <-.
Qed.

Lemma load_distribution_round_robin_witness :
  ∃ node_assignments users' st' user0' assignments,
    self_call seven_self m_calculate_load_distribution
      (calculate_load_distribution seven_self) idle =
      (Returns (node_assignments, users'), st') ∧
    users' !! 0 = Some user0' ∧
    vm_assignments user0' = Some assignments ∧
    assignments !! "desktop" = Some "pve1" ∧
    assignments !! "server" = Some "pve2".
Proof.
  destruct (load_distribution_round_robin seven_self idle)
    as (na & users' & st' & Hrun & _ & _ & _ & Hscenario).
  - reflexivity.
  - simpl. lia.
  - vm_compute. repeat constructor; set_solver.
  - destruct (Hscenario (mk_node "pve1") (mk_node "pve2") (mk_node "pve3")
                "desktop" "server" (mk_user "u0"))
      as (user0' & assignments & _ & Hu & Ha & _ & _ & H0 & H1); try reflexivity.
    exists na, users', st', user0', assignments. auto.
Defined.

(** C5 (as amended).  On an object that has [calculate_load_distribution]
    as a method, with a cluster of [M ≥ 1] nodes of pairwise distinct names,
    the node at position [j] receives the users at the roster positions
    congruent to [j] modulo [M]: ⌊N/M⌋ of them, and one more when
    [j < N mod M], that is ⌊N/M⌋ or ⌈N/M⌉; the counts of two nodes differ by
    at most one. *)
Theorem load_distribution_balanced self st :
  methods self m_calculate_load_distribution = true →
  1 ≤ length (nodes self) →
  NoDup (node_name <$> nodes self) →
  let M := length (nodes self) in
  let N := length (users self) in
  ∃ node_assignments users' st',
    self_call self m_calculate_load_distribution (calculate_load_distribution self) st =
      (Returns (node_assignments, users'), st') ∧
    (∀ j node,
       nodes self !! j = Some node →
       ∃ assigned,
         node_assignments !! node_name node = Some assigned ∧
         length assigned = N / M + (if decide (j < N mod M) then 1 else 0) ∧
         (length assigned = N / M ∨ length assigned = ceil_div N M)) ∧
    (∀ x y assigned_x assigned_y,
       node_assignments !! x = Some assigned_x →
       node_assignments !! y = Some assigned_y →
       length assigned_x ≤ length assigned_y + 1).
Proof.
  intros Hbound HM Hnd M N. rewrite self_call_bound by done.
  destruct (calculate_load_distribution_spec self st HM) as (na & st' & Hrun & _ & _ & Hna).
  set (node_names := node_name <$> nodes self) in *.
  set (users' := distributed_users node_names (template_keys self) 0 (users self)) in *.
  assert (length node_names = M) as HlenM by (unfold node_names; by rewrite length_fmap).
  assert (length users' = N) as HlenN by apply length_distributed_users.
  assert (∀ j node, nodes self !! j = Some node →
            length (routed_to node_names (node_name node) 0 users') =
              N / M + (if decide (j < N mod M) then 1 else 0)) as Hcount.
  { intros j node Hj.
    assert (j < M) as HjM by (by eapply lookup_lt_Some).
    rewrite routed_to_length, HlenM, HlenN.
    rewrite <- (round_robin_count M N j) by (unfold M; lia).
    f_equal. apply list_filter_iff. intros p. split.
    - intros Hp.
      assert (node_names !! (p mod M) = Some (node_name node)) as Hp'.
      { rewrite <- Hp. apply list_lookup_lookup_total_lt.
        rewrite HlenM. apply Nat.mod_upper_bound. unfold M. lia. }
      assert (node_names !! j = Some (node_name node)) as Hj'
        by (unfold node_names; by rewrite list_lookup_fmap, Hj).
      by eapply NoDup_lookup.
    - intros ->. by apply node_names_lookup_total. }
  exists na, users', st'. split; [done|]. split.
  - intros j node Hj. exists (routed_to node_names (node_name node) 0 users').
    split; [|split; [by apply Hcount|]].
    + rewrite Hna, decide_True; [done|].
      apply list_elem_of_fmap. exists node. split; [done|].
      by eapply list_elem_of_lookup_2.
    + rewrite (Hcount j node Hj), ceil_div_floor by (unfold M; lia).
      repeat case_decide; lia.
  - intros x y lx ly Hx Hy. rewrite Hna in Hx, Hy.
    case_decide as Hxin; [|done]. case_decide as Hyin; [|done].
    apply list_elem_of_fmap in Hxin as (nx & -> & Hnx).
    apply list_elem_of_fmap in Hyin as (ny & -> & Hny).
    apply list_elem_of_lookup in Hnx as [jx Hjx].
    apply list_elem_of_lookup in Hny as [jy Hjy].
    injection Hx as <-. injection Hy as <-.
    rewrite (Hcount jx nx Hjx), (Hcount jy ny Hjy).
    repeat case_decide; lia.
Qed.

Lemma load_distribution_balanced_witness :
  ∃ node_assignments users' st' assigned,
    self_call seven_self m_calculate_load_distribution
      (calculate_load_distribution seven_self) idle =
      (Returns (node_assignments, users'), st') ∧
    node_assignments !! "pve1" = Some assigned ∧ length assigned = 3.
Proof.
  destruct (load_distribution_balanced seven_self idle)
    as (na & users' & st' & Hrun & Hcount & _).
  - reflexivity.
  - simpl. lia.
  - vm_compute. repeat constructor; set_solver.
  - destruct (Hcount 0 (mk_node "pve1")) as (assigned & Ha & Hlen & _); [reflexivity|].
    exists na, users', st', assigned. auto.
Defined.

(** C5 (as stated) fails when nodes share a name, also on an object that
    has the method: of four nodes, three are called pve1; with four users,
    ⌊4/4⌋ = ⌈4/4⌉ = 1, but pve1 receives three users and pve2 one. *)
Lemma load_distribution_namesake_counterexample :
  let r := self_call (with_methods namesake_self all_methods)
             m_calculate_load_distribution
             (calculate_load_distribution (with_methods namesake_self all_methods))
             idle in
  let node_assignments := (returned (∅, []) r.1).1 in
  r.1 = Returns (returned (∅, []) r.1) ∧
  length (nodes namesake_self) = 4 ∧ length (users namesake_self) = 4 ∧
  4 / 4 = 1 ∧ ceil_div 4 4 = 1 ∧
  username <$> node_assignments !!! "pve1" = ["alice"; "bob"; "carol"] ∧
  username <$> node_assignments !!! "pve2" = ["dave"] ∧
  ¬ (length (node_assignments !!! "pve1") = 4 / 4 ∨
     length (node_assignments !!! "pve1") = ceil_div 4 4) ∧
  ¬ (length (node_assignments !!! "pve1") ≤ length (node_assignments !!! "pve2") + 1).
Proof.
  intros r node_assignments.
  assert (username <$> node_assignments !!! "pve1" = ["alice"; "bob"; "carol"]) as H1
    by (vm_compute; reflexivity).
  assert (username <$> node_assignments !!! "pve2" = ["dave"]) as H2
    by (vm_compute; reflexivity).
  assert (length (node_assignments !!! "pve1") = 3) as L1
    by (by rewrite <- (length_fmap username), H1).
  assert (length (node_assignments !!! "pve2") = 1) as L2
    by (by rewrite <- (length_fmap username), H2).
  split; [vm_compute; reflexivity|].
  split; [reflexivity|]. split; [reflexivity|]. split; [reflexivity|].
  split; [reflexivity|]. split; [exact H1|]. split; [exact H2|].
  rewrite L1, L2. change (4 / 4) with 1. change (ceil_div 4 4) with 1. lia.
Qed.

(** ** Batch identifiers *)

Lemma parse_nat_zeros k s : parse_nat (zeros k +:+ s) = parse_nat s.
Proof.
  unfold parse_nat. induction k as [|k IH]; [done|].
  simpl in *. rewrite <- IH.
  destruct (NilEmpty.uint_of_string (zeros k +:+ s)) as [d|]; reflexivity.
Qed.

Lemma parse_nat_format_03d n : parse_nat (format_03d n) = Some n.
Proof.
  unfold format_03d. rewrite parse_nat_zeros. unfold parse_nat, str_nat.
  rewrite NilEmpty.usu. simpl. by rewrite Unsigned.of_to.
Qed.

Lemma format_03d_inj n m : format_03d n = format_03d m → n = m.
Proof.
  intros H. pose proof (parse_nat_format_03d n) as Hn.
  rewrite H, parse_nat_format_03d in Hn. by simplify_eq.
Qed.

Lemma batch_id_inj n m :
  "batch_" +:+ format_03d n = "batch_" +:+ format_03d m → n = m.
Proof. intros H. apply format_03d_inj. simpl in H. by simplify_eq. Qed.

(** ** The run loop *)

Lemma deploy_loop_first_failure w self pre batch batch_id post results st st_k st_f :
  all_succeed w self pre st = Some st_k →
  self_call self m_deploy_batch (deploy_batch w self batch batch_id) st_k =
    (Returns false, st_f) →
  deploy_loop w self (pre ++ (batch, batch_id) :: post) results st =
    (Returns (<[batch_id := false]> (foldl (λ m b, <[b.2 := true]> m) results pre)),
     add_log ERROR ("Batch " +:+ batch_id +:+ " failed, stopping deployment") st_f).
Proof.
  revert results st. induction pre as [|[b id] pre IH]; intros results st Hpre Hfail.
  - simpl in *. simplify_eq. by rewrite (bind_returns _ _ _ _ _ Hfail).
  - simpl in *. unfold bind at 1.
    destruct (self_call self m_deploy_batch (deploy_batch w self b id) st)
      as [[[|]|e] st'] eqn:Hb; try done.
    by apply IH.
Qed.


Lemma lookup_foldl_insert_true (bs : list (list User * string))
    (results : gmap string bool) id :
  foldl (λ m b, <[b.2 := true]> m) results bs !! id =
    if decide (id ∈ bs.*2) then Some true else results !! id.
Proof.
  revert results. induction bs as [|[b id'] bs IH]; intros results.
  - destruct (decide (id ∈ ([] : list (list User * string)).*2)) as [H|H]; [|done].
    by apply elem_of_nil in H.
  - rewrite fmap_cons. cbn [foldl snd]. rewrite IH, lookup_insert.
    destruct (decide (id ∈ bs.*2)) as [H1|H1].
    + rewrite decide_True; [done|]. rewrite elem_of_cons. by right.
    + destruct (decide (id' = id)) as [->|H2].
      * rewrite decide_True; [done|]. rewrite elem_of_cons. by left.
      * rewrite decide_False; [done|]. rewrite elem_of_cons. naive_solver.
Qed.

Lemma make_batches_ids us batch_size bs :
  make_batches us batch_size = Returns bs →
  bs.*2 = (λ k, "batch_" +:+ format_03d (S k)) <$> seq 0 (length bs).
Proof.
  intros H. destruct batch_size as [|p|p]; simpl in H; [done| |by simplify_eq].
  injection H as <-. assert (1 ≤ Pos.to_nat p) as Hp by lia.
  rewrite py_range_multiples by done.
  rewrite !length_fmap, length_seq, <- !list_fmap_compose.
  apply list_fmap_ext. intros _ k _. simpl.
  rewrite Nat.div_mul by lia. by rewrite Nat.add_1_r.
Qed.

Lemma split_batch_ids (pre post : list (list User * string)) batch batch_id :
  (pre ++ (batch, batch_id) :: post).*2 =
    (λ k, "batch_" +:+ format_03d (S k))
      <$> seq 0 (length (pre ++ (batch, batch_id) :: post)) →
  pre.*2 = (λ k, "batch_" +:+ format_03d (S k)) <$> seq 0 (length pre) ∧
  batch_id = "batch_" +:+ format_03d (S (length pre)).
Proof.
  rewrite length_app. simpl. rewrite seq_app, !fmap_app. simpl. intros H.
  apply app_inj_1 in H as [Hpre Hrest].
  - split; [done|]. by simplify_eq.
  - by rewrite !length_fmap, length_seq.
Qed.

(** C2.  On an object that has [deploy_all_users] as a method: when the
    distribution returns, the batches before batch [k] succeed and batch
    [k] fails, the run loop stops there.  [self.deploy_all_users] returns
    with the state in which batch [k] ended, plus the record that the
    deployment stops, so nothing of a later batch has run; its results hold
    [True] for the batches 1 to [k - 1], [False] for batch [k] and no entry
    for any other batch. *)
Theorem fail_fast w self batch_size st dist st1 pre batch batch_id post st_k st_f :
  let st0 :=
    add_log INFO ("Starting deployment for " +:+ str_nat (length (users self))
                  +:+ " users in batches of " +:+ str_int batch_size) st in
  let self' := with_users self dist.2 in
  let k := S (length pre) in
  methods self m_deploy_all_users = true →
  self_call self m_calculate_load_distribution (calculate_load_distribution self) st0 =
    (Returns dist, st1) →
  make_batches (users self') batch_size = Returns (pre ++ (batch, batch_id) :: post) →
  all_succeed w self' pre st1 = Some st_k →
  self_call self' m_deploy_batch (deploy_batch w self' batch batch_id) st_k =
    (Returns false, st_f) →
  ∃ results,
    self_call self m_deploy_all_users (deploy_all_users w self batch_size) st =
      (Returns results,
       add_log ERROR ("Batch " +:+ batch_id +:+ " failed, stopping deployment") st_f) ∧
    batch_id = "batch_" +:+ format_03d k ∧
    (∀ j, results !! ("batch_" +:+ format_03d j) =
          if decide (1 ≤ j < k) then Some true
          else if decide (j = k) then Some false else None) ∧
    (∀ id, is_Some (results !! id) ↔ ∃ j, 1 ≤ j ≤ k ∧ id = "batch_" +:+ format_03d j).
Proof.
  intros st0 self' k Hbound Hdist Hbatches Hpre Hfail.
  pose proof (make_batches_ids _ _ _ Hbatches) as Hids.
  apply split_batch_ids in Hids as [Hpre_ids Hid].
  exists (<[batch_id := false]> (foldl (λ m b, <[b.2 := true]> m) ∅ pre)).
  assert (∀ id, id ∈ pre.*2 ↔ ∃ j, 1 ≤ j < k ∧ id = "batch_" +:+ format_03d j) as Hin.
  { intros id. rewrite Hpre_ids, list_elem_of_fmap. split.
    - intros (i & -> & Hi). apply elem_of_seq in Hi. exists (S i). split; [lia|done].
    - intros (j & Hj & ->). exists (j - 1). split.
      + f_equal. f_equal. lia.
      + apply elem_of_seq. lia. }
  split; [|split; [done|split]].
  - rewrite self_call_bound by done.
    unfold deploy_all_users. unfold bind at 1, logger at 1. fold st0.
    rewrite (bind_returns _ _ _ _ _ Hdist). fold self'.
    unfold bind at 1, lift_outcome. rewrite Hbatches.
    by apply deploy_loop_first_failure with (st_k := st_k).
  - intros j. rewrite lookup_insert, Hid.
    destruct (decide (1 ≤ j < k)) as [Hj|Hj].
    + rewrite decide_False by (intros Heq; apply batch_id_inj in Heq; lia).
      rewrite lookup_foldl_insert_true, decide_True; [done|].
      apply Hin. eauto.
    + destruct (decide (j = k)) as [->|Hne]; [by rewrite decide_True|].
      rewrite decide_False by (intros Heq; apply batch_id_inj in Heq; lia).
      rewrite lookup_foldl_insert_true, decide_False; [done|].
      rewrite Hin. intros (j' & Hj' & Heq). apply batch_id_inj in Heq. lia.
  - intros id. rewrite lookup_insert, lookup_foldl_insert_true, lookup_empty.
    split.
    + case_decide as H1.
      * intros _. exists k. split; [lia|]. by subst id.
      * case_decide as H2; [|by intros []].
        intros _. apply Hin in H2 as (j & Hj & ->). exists j. split; [lia|done].
    + intros (j & Hj & ->). case_decide as H1; [done|].
      rewrite decide_True; [done|]. apply Hin. exists j. split; [|done].
      destruct (decide (j = k)) as [->|]; [|lia]. by destruct H1.
Qed.

Lemma fail_fast_witness :
  ∃ results st',
    self_call five_self m_deploy_all_users
      (deploy_all_users second_fails_world five_self 2) idle = (Returns results, st') ∧
    results !! "batch_001" = Some true ∧
    results !! "batch_002" = Some false ∧
    results !! "batch_003" = None.
Proof.
  set (w := second_fails_world). set (self := five_self).
  set (st0 := add_log INFO ("Starting deployment for " +:+ str_nat (length (users self))
                            +:+ " users in batches of " +:+ str_int 2) idle).
  set (d := self_call self m_calculate_load_distribution
              (calculate_load_distribution self) st0).
  set (dist := returned (∅, []) d.1).
  set (self' := with_users self dist.2).
  set (bs := returned [] (make_batches (users self') 2)).
  set (st_k := default idle (all_succeed w self' (take 1 bs) d.2)).
  set (b := default ([], "") (bs !! 1)).
  destruct (fail_fast w self 2 idle dist d.2 (take 1 bs) b.1 b.2 (drop 2 bs) st_k
              (self_call self' m_deploy_batch (deploy_batch w self' b.1 b.2) st_k).2)
    as (results & Hrun & _ & Hres & _).
  - reflexivity.
  - vm_compute; reflexivity.
  - vm_compute; reflexivity.
  - vm_compute; reflexivity.
  - vm_compute; reflexivity.
  - exists results. eexists. split; [exact Hrun|].
    split; [exact (Hres 1)|]. split; [exact (Hres 2)|exact (Hres 3)].
Defined.

(** C3.  On an object that has [deploy_all_users] as a method, with a batch
    size [B] of at least one: when the distribution returns,
    [self.deploy_all_users] hands the run loop the roster (of [N] users, as
    the distribution left it) cut into the contiguous chunks
    [users[k*B : k*B + B]].  Their concatenation is the roster, there are
    ⌈N/B⌉ of them (none for an empty roster), every chunk holds between one
    and [B] users and every chunk but the last holds [B], and chunk [k]
    (from zero) is named [batch_] followed by [k + 1] padded with zeros to
    three digits.  32 users in batches of 15 give chunks of 15, 15 and 2
    users. *)
Theorem batch_partitioning w self batch_size st dist st1 :
  let st0 :=
    add_log INFO ("Starting deployment for " +:+ str_nat (length (users self))
                  +:+ " users in batches of " +:+ str_int batch_size) st in
  let self' := with_users self dist.2 in
  let roster := users self' in
  let B := Z.to_nat batch_size in
  let N := length (users self) in
  methods self m_deploy_all_users = true →
  (1 ≤ batch_size)%Z →
  self_call self m_calculate_load_distribution (calculate_load_distribution self) st0 =
    (Returns dist, st1) →
  ∃ user_batches,
    self_call self m_deploy_all_users (deploy_all_users w self batch_size) st =
      deploy_loop w self' user_batches ∅ st1 ∧
    length roster = N ∧ username <$> roster = username <$> users self ∧
    concat user_batches.*1 = roster ∧
    length user_batches = ceil_div N B ∧
    N ≤ length user_batches * B < N + B ∧
    (N = 0 → user_batches = []) ∧
    (∀ k batch batch_id,
       user_batches !! k = Some (batch, batch_id) →
       batch = take B (drop (k * B) roster) ∧
       1 ≤ length batch ≤ B ∧
       (S k < length user_batches → length batch = B) ∧
       batch_id = "batch_" +:+ format_03d (S k)) ∧
    (N = 32 → batch_size = 15%Z →
     length <$> user_batches.*1 = [15; 15; 2] ∧
     user_batches.*2 = ["batch_001"; "batch_002"; "batch_003"]).
Proof.
  intros st0 self' roster B N Hbound HB Hdist.
  destruct (make_batches_spec roster batch_size HB) as (bs & Hbs & Hspec).
  assert (roster = distributed_users (node_name <$> nodes self) (template_keys self) 0
                     (users self)) as Hroster.
  { unfold self_call in Hdist.
    destruct (methods self m_calculate_load_distribution); [|done].
    unfold calculate_load_distribution, bind, logger, lift_outcome in Hdist.
    destruct (distribute_from _ _ _ _ _) as [[na us']|e] eqn:Hrun; [|done].
    apply distribute_from_roster in Hrun. by simplify_eq. }
  assert (length roster = N) as HN
    by (rewrite Hroster; apply length_distributed_users).
  exists bs. split; [|split; [done|split]].
  - rewrite self_call_bound by done.
    unfold deploy_all_users. unfold bind at 1, logger at 1. fold st0.
    rewrite (bind_returns _ _ _ _ _ Hdist). fold self'.
    unfold bind at 1, lift_outcome. fold roster. by rewrite Hbs.
  - rewrite Hroster. clear. generalize 0.
    induction (users self) as [|u us IH]; intros i; simpl; [done|].
    by rewrite IH.
  - rewrite HN in Hspec. exact Hspec.
Qed.

Lemma batch_partitioning_witness :
  ∃ user_batches,
    length user_batches = 3 ∧
    username <$> concat user_batches.*1 = ["alice"; "bob"; "carol"; "dave"; "erin"] ∧
    ∀ batch batch_id, user_batches !! 1 = Some (batch, batch_id) →
                      batch_id = "batch_002" ∧ length batch = 2.
Proof.
  set (st0 := add_log INFO ("Starting deployment for "
                            +:+ str_nat (length (users five_self))
                            +:+ " users in batches of " +:+ str_int 2) idle).
  set (d := self_call five_self m_calculate_load_distribution
              (calculate_load_distribution five_self) st0).
  destruct (batch_partitioning second_fails_world five_self 2 idle
              (returned (∅, []) d.1) d.2)
    as (bs & _ & _ & Hnames & Hcat & Hlen & _ & _ & Hchunks & _).
  - reflexivity.
  - lia.
  - vm_compute; reflexivity.
  - exists bs. split; [exact Hlen|]. split; [by rewrite Hcat, Hnames|].
    intros batch batch_id Hb.
    destruct (Hchunks 1 batch batch_id Hb) as (_ & _ & Hfull & ->).
    split; [reflexivity|]. apply Hfull. rewrite Hlen. vm_compute. lia.
Defined.

(** ** What a step leaves behind *)

Local Arguments String.append : simpl never.

Section frame.
Context (P : event → Prop) (d : string).

Lemma continues_refl st : continues P st st.
Proof.
  split; [done|]. split; [exists []; by rewrite (right_id_L [] (++))|].
  exists []. split; [by rewrite (right_id_L [] (++))|constructor].
Qed.

Lemma continues_trans st1 st2 st3 :
  continues P st1 st2 → continues P st2 st3 → continues P st1 st3.
Proof.
  intros (Hc1 & [l1 Hl1] & e1 & He1 & HP1) (Hc2 & [l2 Hl2] & e2 & He2 & HP2).
  split; [congruence|]. split.
  - exists (l1 ++ l2). by rewrite Hl2, Hl1, (assoc_L (++)).
  - exists (e1 ++ e2). split; [by rewrite He2, He1, (assoc_L (++))|].
    by apply Forall_app.
Qed.


Lemma continues_event ev st : P ev → continues P st (add_event ev st).
Proof.
  intros Hev. split; [done|]. split; [exists []; by rewrite (right_id_L [] (++))|].
  exists [ev]. split; [done|]. by constructor.
Qed.


Lemma keeps_raise {A} e : keeps P d (raise (A:=A) e).
Proof. intros st _. apply continues_refl. Qed.




Lemma keeps_try_except {A} (body : M A) handler :
  keeps P d body → (∀ e, keeps P d (handler e)) → keeps P d (try_except body handler).
Proof.
  intros Hm Hk st Hd. unfold try_except. specialize (Hm st Hd).
  destruct (body st) as [[v|e] st1]; simpl in *; [done|].
  eapply continues_trans; [done|]. apply Hk. destruct Hm as [Hc _]. congruence.
Qed.



Lemma keeps_os_path_exists w path :
  (∀ res, P (EvExists path res)) → keeps P d (os_path_exists w path).
Proof. intros HP st Hd. unfold os_path_exists. simpl. by apply continues_event. Qed.

Lemma keeps_os_makedirs w path :
  (∀ res, P (EvMakedirs path res)) → keeps P d (os_makedirs w path).
Proof. intros HP st Hd. unfold os_makedirs. simpl. by apply continues_event. Qed.

Lemma keeps_render_to_file w template file vars :
  (∀ res, P (EvRender template file vars res)) →
  keeps P d (render_to_file w template file vars).
Proof. intros HP st Hd. unfold render_to_file. simpl. by apply continues_event. Qed.

Lemma keeps_read_json w file :
  (∀ res, P (EvReadJson file res)) → keeps P d (read_json w file).
Proof. intros HP st Hd. unfold read_json. simpl. by apply continues_event. Qed.

End frame.

Lemma continues_weaken (P Q : event → Prop) st st' :
  (∀ ev, P ev → Q ev) → continues P st st' → continues Q st st'.
Proof.
  intros HPQ (Hc & Hl & evs & He & HP). split; [done|]. split; [done|].
  exists evs. split; [done|]. by eapply Forall_impl.
Qed.

(** ** The provisioning step and the working directory *)











(** ** The configuration step *)




Section playbook_steps.
Context (w : World) (self : Orchestrator) (inventory_file batch_dir : string).
Context (playbook : string) (rest : list string) (st : Proc).
Let playbook_dir := default "ansible" (playbook_dir_cfg self).
Let playbook_path := playbook_dir +:+ "/" +:+ playbook.
Let finish : unit → M bool := λ _, ret true.






End playbook_steps.




(** ** The pipeline of a batch *)





(** * Further properties of the code *)

(** ** Identifier allocation *)




(** ** Load distribution *)



(** ** Batches *)





(** ** The steps of a batch *)









(** ** The run loop *)



